(** * Telemetry: the request-instrumentation pipeline

    A shallow embedding of [app/metrics.py] (the Prometheus middleware) and of
    the log processor [add_trace_context] of [app/main.py], with the
    properties of the pipeline stated and proved over it.

    Layout
    - [Py]         Python control flow: outcomes, the state-and-exception
                   monad, [try ... finally]
    - [Http]       requests, responses, [getattr(response, "status_code", 500)]
    - [Middleware] [PrometheusMiddleware.dispatch], over an interface of
                   metric calls
    - [Prom]       the three metrics of [metrics.py] and their process state
    - [Loop]       the event loop: requests in flight, suspended at
                   [await call_next(request)]
    - [App]        the [/healthz] route of [main.py] and sample data
    - [Logs]       [add_trace_context] and [format(n, "032x")]
    - [Gunicorn]   the worker count of [gunicorn_conf.py]
    - [Setup]      the span exporters [main.py] configures
    - [Work]       the memory loop of the handler [work]
    - [Downstream] the handler [downstream]
    - [Ledger]     counting the ended requests of the event loop

    The definitions come first; the proofs follow, one request at a time,
    then over the event loop, then the log processor. *)

From Stdlib Require Import ZArith Lia Ascii Floats.PrimFloat.
From stdpp Require Import gmap strings pretty list fin_maps.

Open Scope string_scope.
Open Scope list_scope.
Open Scope Z_scope.

(* ===================================================================== *)
(** * Python control flow *)
(* ===================================================================== *)

Module Py.

(** An exception object: its class and its message. *)
Record exn := Exn { exc_class : string; exc_msg : string }.

(** How a call ends: [return a] or [raise e]. *)
Inductive outcome (A : Type) : Type :=
| Return (a : A)
| Raise (e : exn).
Arguments Return {A} a.
Arguments Raise {A} e.

(** A computation over the process state [W]. An exception does not roll
    the state back, so the state is returned on both outcomes. *)
Definition py (W A : Type) : Type := W -> outcome A * W.

Section Monad.
Context {W : Type}.

Definition ret {A} (a : A) : py W A := fun w => (Return a, w).

Definition raise {A} (e : exn) : py W A := fun w => (Raise e, w).

Definition bind {A B} (c : py W A) (k : A -> py W B) : py W B :=
  fun w =>
    match c w with
    | (Return a, w1) => k a w1
    | (Raise e, w1) => (Raise e, w1)
    end.

(** [try: body finally: fin]. The [finally] suite runs however [body]
    ends; when it completes, the outcome of [body] stands (its return
    value or its exception); when it raises, its own exception replaces
    that outcome. *)
Definition try_finally {A} (body : py W A) (fin : py W unit) : py W A :=
  fun w =>
    let (r, w1) := body w in
    match fin w1 with
    | (Return _, w2) => (r, w2)
    | (Raise e, w2) => (Raise e, w2)
    end.

End Monad.

Declare Scope py_scope.
Delimit Scope py_scope with py.
Notation "x <- c ;; k" := (bind c (fun x => k))
  (at level 100, c at next level, right associativity) : py_scope.
Notation "c ;;; k" := (bind c (fun _ => k))
  (at level 100, right associativity) : py_scope.

End Py.
Import Py.
Open Scope py_scope.

(* ===================================================================== *)
(** * Requests and responses *)
(* ===================================================================== *)

Module Http.

(** What [dispatch] reads of a request: [request.method] and
    [request.url.path]. *)
Record Request := { method : string; path : string }.

(** A response body: a JSON object given by its fields, or raw text. *)
Inductive body : Type :=
| Json (fields : list (string * string))
| Raw (text : string).

(** A response object. [status_code] is [None] for an object that has no
    such attribute. *)
Record Response := { status_code : option Z; content : body }.

(** [getattr(response, "status_code", default)] *)
Definition getattr_status_code (response : Response) (default_ : Z) : Z :=
  match status_code response with
  | Some code => code
  | None => default_
  end.

(** [str(status)] for an integer status. *)
Definition str (n : Z) : string := pretty n.

End Http.
Import Http.

(* ===================================================================== *)
(** * The middleware *)
(* ===================================================================== *)

Module Middleware.

(** The calls [dispatch] makes on the module-level metric objects and on
    the clock. Each is a Python call: it may raise. *)
Class Instruments (W : Type) := {
  (** [time.perf_counter()] *)
  perf_counter : py W float;
  (** [INPROGRESS.inc()] *)
  INPROGRESS_inc : py W unit;
  (** [INPROGRESS.dec()] *)
  INPROGRESS_dec : py W unit;
  (** [REQUEST_COUNT.labels(method=m, path=p, status_code=s).inc()] *)
  REQUEST_COUNT_inc : string -> string -> string -> py W unit;
  (** [REQUEST_LATENCY.labels(method=m, path=p).observe(d)] *)
  REQUEST_LATENCY_observe : string -> string -> float -> py W unit
}.

Section Dispatch.
Context {W : Type} `{Instruments W}.

(** The [try] suite of [dispatch] (lines 30-33). *)
Definition try_suite (call_next : Request -> py W Response)
    (request : Request) : py W Response :=
  response <- call_next request ;;
  let status := getattr_status_code response 500 in
  REQUEST_COUNT_inc (method request) (path request) (str status) ;;;
  ret response.

(** The [finally] suite of [dispatch] (lines 35-37). *)
Definition finally_suite (request : Request) (start : float) : py W unit :=
  now <- perf_counter ;;
  let duration := PrimFloat.sub now start in
  REQUEST_LATENCY_observe (method request) (path request) duration ;;;
  INPROGRESS_dec.

(** [PrometheusMiddleware.dispatch(self, request, call_next)] *)
Definition dispatch (call_next : Request -> py W Response)
    (request : Request) : py W Response :=
  if String.eqb (path request) "/metrics" then
    call_next request
  else
    start <- perf_counter ;;
    INPROGRESS_inc ;;;
    try_finally (try_suite call_next request) (finally_suite request start).

(** [dispatch] runs in two turns of the event loop. [enter] is what a
    measured request executes before it suspends at
    [await call_next(request)] (lines 27-28); [resume] is what it executes
    when the await ends with outcome [o] (lines 30-37). *)
Definition enter : py W float :=
  start <- perf_counter ;;
  INPROGRESS_inc ;;;
  ret start.

Definition resume (request : Request) (start : float)
    (o : outcome Response) : py W Response :=
  try_finally (try_suite (fun _ w => (o, w)) request)
              (finally_suite request start).

End Dispatch.

End Middleware.
Import Middleware.


(* ===================================================================== *)
(** * The metrics of [metrics.py] *)
(* ===================================================================== *)

Module Prom.

(** The process state [dispatch] works on: the clock that
    [time.perf_counter()] reads and the three module-level metrics.
    - [REQUEST_COUNT]: one value per label tuple
      [(method, path, status_code)];
    - [REQUEST_LATENCY]: per label tuple [(method, path)], the values
      observed so far, oldest first (the histogram's count is the length
      of that list, its sum the sum of its elements);
    - [INPROGRESS]: the value of the label-less gauge. *)
Record World := {
  clock : float;
  REQUEST_COUNT : gmap (string * string * string) Z;
  REQUEST_LATENCY : gmap (string * string) (list float);
  INPROGRESS : Z
}.

Definition set_clock (t : float) (w : World) : World :=
  {| clock := t; REQUEST_COUNT := REQUEST_COUNT w;
     REQUEST_LATENCY := REQUEST_LATENCY w; INPROGRESS := INPROGRESS w |}.

Definition set_REQUEST_COUNT (c : gmap (string * string * string) Z)
    (w : World) : World :=
  {| clock := clock w; REQUEST_COUNT := c;
     REQUEST_LATENCY := REQUEST_LATENCY w; INPROGRESS := INPROGRESS w |}.

Definition set_REQUEST_LATENCY (h : gmap (string * string) (list float))
    (w : World) : World :=
  {| clock := clock w; REQUEST_COUNT := REQUEST_COUNT w;
     REQUEST_LATENCY := h; INPROGRESS := INPROGRESS w |}.

Definition set_INPROGRESS (g : Z) (w : World) : World :=
  {| clock := clock w; REQUEST_COUNT := REQUEST_COUNT w;
     REQUEST_LATENCY := REQUEST_LATENCY w; INPROGRESS := g |}.

(** The value of a counter series; a series never written reads 0. *)
Definition counter_value (c : gmap (string * string * string) Z)
    (labels : string * string * string) : Z :=
  default 0 (c !! labels).

(** The observations of a histogram series; none for a series never
    written. *)
Definition observations (h : gmap (string * string) (list float))
    (labels : string * string) : list float :=
  default [] (h !! labels).

(** The total of [http_requests_total] for one [(method, path)] pair,
    summed over every [status_code] label value. *)
Definition counter_total (c : gmap (string * string * string) Z)
    (m p : string) : Z :=
  map_fold (fun (labels : string * string * string) (v acc : Z) =>
              if decide (labels.1 = (m, p)) then v + acc else acc) 0 c.

Definition ValueError : exn :=
  Exn "ValueError" "Counters can only be incremented by non-negative amounts.".

(** Modelled from the spec: the registry's [counter_increment(name,
    label_values, amount >= 0)], which [metrics.py] imports from
    [prometheus_client] ([Counter.labels(...).inc(amount)], amount 1 when
    omitted) and does not define. The series of the label tuple is created
    on first use and grows by [amount]; a negative amount is refused. *)
Definition counter_increment (labels : string * string * string)
    (amount : Z) : py World unit :=
  fun w =>
    if amount <? 0 then (Raise ValueError, w)
    else
      (Return tt,
       set_REQUEST_COUNT
         (<[labels := counter_value (REQUEST_COUNT w) labels + amount]>
            (REQUEST_COUNT w)) w).

(** Modelled from the spec: the registry's [histogram_observe(name,
    label_values, value)] ([Histogram.labels(...).observe(value)] of
    [prometheus_client]): the value is recorded in the series of the label
    tuple, raising its count by one and its sum by the value. *)
Definition histogram_observe (labels : string * string) (value : float)
    : py World unit :=
  fun w =>
    (Return tt,
     set_REQUEST_LATENCY
       (<[labels := (observations (REQUEST_LATENCY w) labels ++ [value])%list]>
          (REQUEST_LATENCY w)) w).

(** Modelled from the spec: the registry's [gauge_increment] and
    [gauge_decrement] ([Gauge.inc()] and [Gauge.dec()] of
    [prometheus_client], by 1 when the amount is omitted). *)
Definition gauge_increment : py World unit :=
  fun w => (Return tt, set_INPROGRESS (INPROGRESS w + 1) w).

Definition gauge_decrement : py World unit :=
  fun w => (Return tt, set_INPROGRESS (INPROGRESS w - 1) w).

(** The metric objects as [metrics.py] declares them (lines 7-17), and the
    process clock. *)
#[export] Instance prometheus : Instruments World := {
  perf_counter := fun w => (Return (clock w), w);
  INPROGRESS_inc := gauge_increment;
  INPROGRESS_dec := gauge_decrement;
  REQUEST_COUNT_inc := fun m p s => counter_increment (m, p, s) 1;
  REQUEST_LATENCY_observe := fun m p d => histogram_observe (m, p) d
}.

(** The label tuple under which a returned response is counted
    (lines 31-32). *)
Definition count_labels (request : Request) (response : Response)
    : string * string * string :=
  (method request, path request, str (getattr_status_code response 500)).

(** The world in which [call_next] runs: lines 27-28 have read the clock
    and raised the gauge. *)
Definition entered (w : World) : World := set_INPROGRESS (INPROGRESS w + 1) w.

(** The world after line 32, from the world [w2] in which [call_next]
    ended with outcome [o]. *)
Definition counted (request : Request) (o : outcome Response) (w2 : World)
    : World :=
  match o with
  | Return response =>
      set_REQUEST_COUNT
        (<[count_labels request response :=
             counter_value (REQUEST_COUNT w2) (count_labels request response)
             + 1]> (REQUEST_COUNT w2)) w2
  | Raise _ => w2
  end.

(** The world after the [finally] suite, from the world [w3] in which the
    [try] suite ended. *)
Definition released (request : Request) (start : float) (w3 : World)
    : World :=
  set_INPROGRESS (INPROGRESS w3 - 1)
    (set_REQUEST_LATENCY
       (<[(method request, path request) :=
            (observations (REQUEST_LATENCY w3) (method request, path request)
             ++ [PrimFloat.sub (clock w3) start])%list]>
          (REQUEST_LATENCY w3)) w3).

End Prom.
Import Prom.

(* ===================================================================== *)
(** * The event loop *)
(* ===================================================================== *)

Module Loop.

(** A request in flight, suspended at [await call_next(request)]: a
    measured one remembers its [start]; one to ["/metrics"] was passed
    through. *)
Inductive task : Type :=
| Measured (request : Request) (start : float)
| Bypassed (request : Request).

(** The process: the metrics and the clock, the requests in flight, and
    the log of the requests that ended, each with the outcome [dispatch]
    gave its caller. *)
Record Sys := {
  world : World;
  inflight : list task;
  settled : list (Request * outcome Response)
}.

(** What can happen next. The loop runs one coroutine at a time and
    switches only at an [await], so each event is atomic.
    - [Arrive request]: [dispatch] is called and runs up to its await;
    - [Tick t]: time passes, the clock now reads [t];
    - [Resolve i o]: the await of the [i]-th request in flight ends with
      outcome [o] (a response, an exception of the handler, or a
      cancellation, which is raised at the await as an exception) and
      [dispatch] runs to its end. *)
Inductive event : Type :=
| Arrive (request : Request)
| Tick (t : float)
| Resolve (i : nat) (o : outcome Response).

Definition step (s : Sys) (ev : event) : option Sys :=
  match ev with
  | Arrive request =>
      if String.eqb (path request) "/metrics" then
        Some {| world := world s;
                inflight := inflight s ++ [Bypassed request];
                settled := settled s |}
      else
        match enter (world s) with
        | (Return start, w1) =>
            Some {| world := w1;
                    inflight := inflight s ++ [Measured request start];
                    settled := settled s |}
        | (Raise e, w1) =>
            Some {| world := w1;
                    inflight := inflight s;
                    settled := settled s ++ [(request, Raise e)] |}
        end
  | Tick t =>
      Some {| world := set_clock t (world s);
              inflight := inflight s;
              settled := settled s |}
  | Resolve i o =>
      match inflight s !! i with
      | None => None
      | Some (Bypassed request) =>
          Some {| world := world s;
                  inflight := delete i (inflight s);
                  settled := settled s ++ [(request, o)] |}
      | Some (Measured request start) =>
          let (o', w') := resume request start o (world s) in
          Some {| world := w';
                  inflight := delete i (inflight s);
                  settled := settled s ++ [(request, o')] |}
      end
  end.

(** How many of the requests in flight are measured ones. *)
Definition measured_inflight (ts : list task) : Z :=
  foldr (fun t acc => match t with
                      | Measured _ _ => 1 + acc
                      | Bypassed _ => acc
                      end) 0 ts.

(** A request in flight is measured exactly when its path is not
    ["/metrics"]. *)
Definition task_ok (t : task) : Prop :=
  match t with
  | Measured request _ => path request <> "/metrics"
  | Bypassed request => path request = "/metrics"
  end.

(** The scrape path labels no series of [w]: neither in
    [http_requests_total] nor in [http_request_duration_seconds]. *)
Definition scrape_free (w : World) : Prop :=
  (forall m p s, is_Some (REQUEST_COUNT w !! (m, p, s)) -> p <> "/metrics")
  /\ (forall m p, is_Some (REQUEST_LATENCY w !! (m, p)) -> p <> "/metrics").

(** A schedule, event by event; [None] when an event names a request that
    is not in flight. *)
Fixpoint run (s : Sys) (evs : list event) : option Sys :=
  match evs with
  | [] => Some s
  | ev :: evs' =>
      match step s ev with
      | Some s' => run s' evs'
      | None => None
      end
  end.

(** The process after import of [metrics.py]: no series yet, the gauge at
    0, nothing in flight. *)
Definition boot (t : float) : Sys :=
  {| world := {| clock := t; REQUEST_COUNT := ∅; REQUEST_LATENCY := ∅;
                 INPROGRESS := 0 |};
     inflight := [];
     settled := [] |}.

(** The counter increments a log of ended requests accounts for: one of
    amount 1, under the labels of the response, for each measured request
    that returned. *)
Definition increments (log : list (Request * outcome Response))
    : list ((string * string * string) * Z) :=
  omap (fun '(request, o) =>
          match o with
          | Return response =>
              if String.eqb (path request) "/metrics" then None
              else Some (count_labels request response, 1)
          | Raise _ => None
          end) log.

(** The sum of the amounts sent to one series. *)
Definition amount_on (labels : string * string * string)
    (incs : list ((string * string * string) * Z)) : Z :=
  foldr (fun '(l, a) acc => if decide (l = labels) then a + acc else acc)
        0 incs.

(** Counter increments applied one after the other, in the order given;
    the first refusal ends the run. *)
Fixpoint apply_increments (incs : list ((string * string * string) * Z))
    : py World unit :=
  match incs with
  | [] => ret tt
  | (l, a) :: incs' => counter_increment l a ;;; apply_increments incs'
  end.

End Loop.
Import Loop.

(* ===================================================================== *)
(** * The application behind the middleware, and sample data *)
(* ===================================================================== *)

Module App.

(** [healthz()] of [main.py] (lines 79-81): the dict it returns. *)
Definition healthz : list (string * string) := [("status", "ok")].

(** The route [/healthz] as [call_next] presents it to the middleware.
    [main.py] registers the handler with [@app.get] only: for a [GET] the
    framework serialises the returned dict into a JSON response with
    status 200; for any other method it answers 405 without calling the
    handler. Neither touches the clock or the metrics. *)
Definition healthz_route {W : Type} : Request -> py W Response :=
  fun request =>
    if String.eqb (method request) "GET" then
      ret {| status_code := Some 200; content := Json healthz |}
    else
      ret {| status_code := Some 405;
             content := Json [("detail", "Method Not Allowed")] |}.

(** A route whose handler raises: the exception reaches the middleware
    through [await call_next(request)]. *)
Definition RuntimeError : exn := Exn "RuntimeError" "handler failed".

Definition failing_route {W : Type} : Request -> py W Response :=
  fun _ => raise RuntimeError.

(** A route that takes some time and returns 200. *)
Definition slow_route : Request -> py World Response :=
  fun _ w =>
    (Return {| status_code := Some 200; content := Raw "done" |},
     set_clock (PrimFloat.add (clock w) 0.25%float) w).

Definition GET_healthz : Request := {| method := "GET"; path := "/healthz" |}.
Definition GET_work : Request := {| method := "GET"; path := "/work" |}.
Definition GET_metrics : Request := {| method := "GET"; path := "/metrics" |}.
Definition GET_db : Request := {| method := "GET"; path := "/db" |}.

(** A process state with some history. *)
Definition sample_world : World :=
  {| clock := 10%float;
     REQUEST_COUNT := {[ ("GET", "/work", "200") := 3 ]};
     REQUEST_LATENCY := {[ ("GET", "/work") := [0.5%float; 0.25%float; 1%float] ]};
     INPROGRESS := 2 |}.

(** Metric objects one of which is broken: [REQUEST_COUNT] was declared
    with other label names than [dispatch] passes, so that
    [REQUEST_COUNT.labels(method=..., path=..., status_code=...)] raises;
    the other calls are those of [prometheus]. *)
Definition IncorrectLabelNames : exn := Exn "ValueError" "Incorrect label names".

Definition mislabelled : Instruments World := {|
  perf_counter := fun w => (Return (clock w), w);
  INPROGRESS_inc := gauge_increment;
  INPROGRESS_dec := gauge_decrement;
  REQUEST_COUNT_inc := fun _ _ _ => raise IncorrectLabelNames;
  REQUEST_LATENCY_observe := fun m p d => histogram_observe (m, p) d
|}.

(** A schedule of three overlapping requests: one to [/work] whose handler
    fails, one to [/healthz] and one scrape. *)
Definition sample_schedule : list event :=
  [ Arrive GET_work;
    Arrive GET_healthz;
    Tick 1%float;
    Arrive GET_metrics;
    Resolve 1 (Return {| status_code := Some 200; content := Json healthz |});
    Tick 2%float;
    Resolve 0 (Raise RuntimeError);
    Resolve 0 (Return {| status_code := Some 200; content := Raw "text" |}) ].

End App.
Import App.

(* ===================================================================== *)
(** * The log processor *)
(* ===================================================================== *)

Module Logs.

(** A value of a log field. *)
Inductive value : Type :=
| VStr (s : string)
| VInt (n : Z)
| VFloat (x : float).

(** What [add_trace_context] reads of the context of the current span:
    [ctx.trace_id], [ctx.span_id] (Python integers) and [ctx.is_valid]. *)
Record SpanContext := {
  trace_id : Z;
  span_id : Z;
  is_valid : bool
}.

(** The digit [d] (0 to 15) as the format type ["x"] writes it: [0-9],
    then lower-case [a-f]. *)
Definition hex_digit (d : Z) : ascii :=
  if d <? 10 then ascii_of_nat (Z.to_nat (48 + d))
  else ascii_of_nat (Z.to_nat (87 + d)).

(** The digits of [n >= 0] in base 16, most significant first. *)
Fixpoint hex_digits (fuel : nat) (n : Z) : list ascii :=
  match fuel with
  | O => []
  | S fuel' =>
      if n <? 16 then [hex_digit n]
      else hex_digits fuel' (n / 16) ++ [hex_digit (n mod 16)]
  end.

(** [format(n, "x")] for [n >= 0]; a number below [2 ^ (1 + log2 n)] has no
    more than [1 + log2 n] digits. *)
Definition hex (n : Z) : list ascii :=
  hex_digits (S (Z.to_nat (Z.log2 n))) n.

(** [format(n, "0<width>x")]: lower-case hexadecimal, padded with zeros
    on the left up to [width] characters; a minus sign comes first and
    counts in the width; a longer number is not cut. *)
Definition format_0x (width : nat) (n : Z) : string :=
  String.string_of_list_ascii
    (if n <? 0 then
       "-"%char :: replicate (width - 1 - length (hex (- n))) "0"%char
                   ++ hex (- n)
     else replicate (width - length (hex n)) "0"%char ++ hex n).

(** [add_trace_context(logger, method_name, event_dict)] of [main.py]
    (lines 41-47). [ctx] is the context of the current span,
    [trace.get_current_span().get_span_context()]; [None] stands for a
    context object that is false in a condition. *)
Definition add_trace_context (ctx : option SpanContext)
    (logger method_name : string) (event_dict : gmap string value)
    : gmap string value :=
  match ctx with
  | Some c =>
      if is_valid c then
        <["span_id" := VStr (format_0x 16 (span_id c))]>
          (<["trace_id" := VStr (format_0x 32 (trace_id c))]> event_dict)
      else event_dict
  | None => event_dict
  end.

(** Reading a string back as a base-16 numeral. *)
Definition digit_value (c : ascii) : Z :=
  let k := Z.of_nat (nat_of_ascii c) in
  if (48 <=? k) && (k <=? 57) then k - 48
  else if (97 <=? k) && (k <=? 102) then k - 87
  else 0.

Definition hex_value (l : list ascii) : Z :=
  fold_left (fun v c => 16 * v + digit_value c) l 0.

(** One of the sixteen characters [0-9a-f]. *)
Definition lower_hex (c : ascii) : bool :=
  let k := Z.of_nat (nat_of_ascii c) in
  ((48 <=? k) && (k <=? 57)) || ((97 <=? k) && (k <=? 102)).

(** [s] is the number [n] written in exactly [width] lower-case
    hexadecimal characters. *)
Definition renders (width : nat) (n : Z) (s : string) : Prop :=
  String.length s = width
  /\ forallb lower_hex (String.list_ascii_of_string s) = true
  /\ hex_value (String.list_ascii_of_string s) = n.

End Logs.
Import Logs.

(* ===================================================================== *)
(** * The rest of the service: configuration and handlers *)
(* ===================================================================== *)

Module Gunicorn.

(** [gunicorn_conf.py], line 4:
    [workers = max(2, multiprocessing.cpu_count() // 2)]. *)
Definition workers (cpu_count : Z) : Z := Z.max 2 (cpu_count / 2).

End Gunicorn.

Module Setup.

(** The span exporters [main.py] can construct (lines 60-64). *)
Inductive SpanExporter : Type :=
| OTLPSpanExporter (endpoint : string)
| ConsoleSpanExporter.

(** A span processor wraps one exporter (line 67). *)
Inductive SpanProcessor : Type :=
| BatchSpanProcessor (exporter : SpanExporter).

(** [os.getenv(name)]: the value of the variable, [None] when unset. *)
Definition getenv (environ : gmap string string) (name : string)
    : option string :=
  environ !! name.

(** [OTEL_EXPORTER_OTLP_ENDPOINT = os.getenv("OTEL_EXPORTER_OTLP_ENDPOINT")]
    (line 30). *)
Definition OTEL_EXPORTER_OTLP_ENDPOINT (environ : gmap string string)
    : option string :=
  getenv environ "OTEL_EXPORTER_OTLP_ENDPOINT".

(** The truth value of an optional string in a condition: [None] and the
    empty string are false. *)
Definition truthy (v : option string) : bool :=
  match v with
  | Some s => negb (String.eqb s "")
  | None => false
  end.

(** The list [span_exporters] after lines 58-64. *)
Definition span_exporters (environ : gmap string string)
    : list SpanExporter :=
  if truthy (OTEL_EXPORTER_OTLP_ENDPOINT environ) then
    [] ++ [OTLPSpanExporter
             (default "" (OTEL_EXPORTER_OTLP_ENDPOINT environ)
              +:+ "/v1/traces")]
  else
    [] ++ [ConsoleSpanExporter].

(** The processors the loop of lines 66-67 adds to the provider, in order. *)
Definition span_processors (environ : gmap string string)
    : list SpanProcessor :=
  foldl (fun added exporter => added ++ [BatchSpanProcessor exporter])
        [] (span_exporters environ).

End Setup.

Module Work.

Definition IndexError : exn := Exn "IndexError" "bytearray index out of range".
Definition ByteValueError : exn := Exn "ValueError" "byte must be in range(0, 256)".

Definition NegativeCount : exn := Exn "ValueError" "negative count".
Definition OverflowError : exn :=
  Exn "OverflowError" "cannot fit 'int' into an index-sized integer".
Definition MemoryError : exn := Exn "MemoryError" "".

(** [n] zero bytes: the content of a bytearray just created. *)
Definition zeroed (n : Z) : list Z := replicate (Z.to_nat n) 0.

(** [bytearray(n)] for an integer [n]. The call fails on a negative
    count, on a count above [sys.maxsize] ([maxsize]) and when the
    allocator cannot provide [n] bytes; [available] is the largest size
    it can provide at the time of the call. *)
Definition bytearray (maxsize available n : Z) : outcome (list Z) :=
  if n <? 0 then Raise NegativeCount
  else if maxsize <? n then Raise OverflowError
  else if available <? n then Raise MemoryError
  else Return (zeroed n).

(** The buffer of [work] after lines 95-97: [None] unless [mem_mb > 0];
    a failure of [bytearray] ends the handler. *)
Definition allocate (maxsize available mem_mb : Z)
    : outcome (option (list Z)) :=
  if 0 <? mem_mb then
    match bytearray maxsize available (mem_mb * 1024 * 1024) with
    | Return buf => Return (Some buf)
    | Raise e => Raise e
    end
  else Return None.

(** [buf[i]] for an index [i >= 0]. *)
Definition getitem (buf : list Z) (i : Z) : outcome Z :=
  match buf !! Z.to_nat i with
  | Some v => Return v
  | None => Raise IndexError
  end.

(** [buf[i] = v] for an index [i >= 0]. *)
Definition setitem (buf : list Z) (i v : Z) : outcome (list Z) :=
  if (0 <=? v) && (v <? 256) then
    if i <? Z.of_nat (length buf) then Return (<[Z.to_nat i := v]> buf)
    else Raise IndexError
  else Raise ByteValueError.

(** The values of [range(start, stop, step)] for [step > 0]. The range has
    no more than [stop - start] values, which bounds the recursion. *)
Fixpoint range_from (fuel : nat) (start stop step : Z) : list Z :=
  match fuel with
  | O => []
  | S fuel' =>
      if start <? stop then start :: range_from fuel' (start + step) stop step
      else []
  end.

Definition range (start stop step : Z) : list Z :=
  range_from (Z.to_nat (stop - start)) start stop step.

(** The body of the loop of lines 107-108 run over the indices given:
    [buf[i] = (buf[i] + 1) % 255]. *)
Fixpoint touch_at (buf : list Z) (indices : list Z) : outcome (list Z) :=
  match indices with
  | [] => Return buf
  | i :: rest =>
      match getitem buf i with
      | Raise e => Raise e
      | Return v =>
          match setitem buf i ((v + 1) mod 255) with
          | Raise e => Raise e
          | Return buf' => touch_at buf' rest
          end
      end
  end.

(** The distance between two touched bytes: [max(1, len(buf)//10)]. *)
Definition stride (buf : list Z) : Z :=
  Z.max 1 (Z.of_nat (length buf) / 10).

(** Lines 107-108:
    [for i in range(0, len(buf), max(1, len(buf)//10)): ...]. *)
Definition touch (buf : list Z) : outcome (list Z) :=
  touch_at buf (range 0 (Z.of_nat (length buf)) (stride buf)).

(** Lines 106-108, with the test [buf is not None]. *)
Definition touch_memory (buf : option (list Z)) : outcome (option (list Z)) :=
  match buf with
  | None => Return None
  | Some b =>
      match touch b with
      | Return b' => Return (Some b')
      | Raise e => Raise e
      end
  end.

End Work.

Module Downstream.

(** What the handler [downstream] of [main.py] calls outside itself. *)
Class Outbound (W : Type) := {
  (** entering [with tracer.start_as_current_span(name):] *)
  span_enter : string -> py W unit;
  (** leaving that block *)
  span_exit : py W unit;
  (** [requests.get(url, timeout=t)], giving the [status_code] of the
      reply *)
  requests_get : string -> Z -> py W Z;
  (** [log.error(event, **fields)] *)
  log_error : string -> list (string * value) -> py W unit;
  (** [isinstance(e, requests.RequestException)] *)
  is_RequestException : exn -> bool
}.

(** [HTTPException(status_code=..., detail=...)] *)
Definition HTTPException (status : Z) (detail : string) : exn :=
  Exn "HTTPException" (str status +:+ ": " +:+ detail).

Section Handler.
Context {W : Type} `{Outbound W}.

(** [with cm: body], for a context manager that lets exceptions through:
    the block is left, by [span_exit], however [body] ends. *)
Definition with_span {A} (name : string) (body : py W A) : py W A :=
  span_enter name ;;;
  try_finally body span_exit.

(** [try: body except C as e: handler] where [catches] tells the
    instances of [C]. *)
Definition try_except {A} (body : py W A) (catches : exn -> bool)
    (handler : exn -> py W A) : py W A :=
  fun w =>
    match body w with
    | (Return a, w1) => (Return a, w1)
    | (Raise e, w1) => if catches e then handler e w1 else (Raise e, w1)
    end.

(** [downstream()] of [main.py] (lines 114-125). [JSONResponse(...)] has
    status 200 when none is given. *)
Definition downstream : py W Response :=
  with_span "call_httpbin"
    (try_except
       (r <- requests_get "https://httpbin.org/delay/0.2" 3 ;;
        ret {| status_code := Some 200;
               content := Json [("status_code", str r)] |})
       is_RequestException
       (fun e =>
          log_error "downstream_error" [("error", VStr (exc_msg e))] ;;;
          raise (HTTPException 502 "downstream call failed"))).

End Handler.

(** A world for [downstream]: what the remote end will do, the spans
    current (innermost first), the spans ended, and the log records
    written, each with the spans current when it was written. *)
Record Net := {
  remote : outcome Z;
  current_spans : list string;
  ended_spans : list string;
  log_records : list (list string * string * list (string * value))
}.

(** The calls of [downstream] on that world, for a given
    [isinstance(e, requests.RequestException)] test. *)
Definition net (isinstance_RequestException : exn -> bool)
    : Outbound Net := {|
  span_enter := fun name w =>
    (Return tt,
     {| remote := remote w; current_spans := name :: current_spans w;
        ended_spans := ended_spans w; log_records := log_records w |});
  span_exit := fun w =>
    (Return tt,
     {| remote := remote w; current_spans := tail (current_spans w);
        ended_spans := ended_spans w ++ take 1 (current_spans w);
        log_records := log_records w |});
  requests_get := fun _ _ w => (remote w, w);
  log_error := fun event fields w =>
    (Return tt,
     {| remote := remote w; current_spans := current_spans w;
        ended_spans := ended_spans w;
        log_records :=
          log_records w ++ [(current_spans w, event, fields)] |});
  is_RequestException := isinstance_RequestException
|}.

(** A connection attempt that timed out, as [requests] raises it, and an
    [isinstance] test that knows this one class. *)
Definition ConnectTimeout : exn :=
  Exn "requests.exceptions.ConnectTimeout" "timed out".

Definition is_ConnectTimeout (e : exn) : bool :=
  String.eqb (exc_class e) "requests.exceptions.ConnectTimeout".

End Downstream.

(* ===================================================================== *)
(** * Accounting over the log of ended requests *)
(* ===================================================================== *)

Module Ledger.

(** The measured requests of a log with the given method and path. *)
Definition ended_with (m p : string)
    (log : list (Request * outcome Response))
    : list (Request * outcome Response) :=
  filter (fun ro => path ro.1 <> "/metrics"
                    /\ (method ro.1, path ro.1) = (m, p)) log.

(** Did the request end with a response? *)
Definition returned (ro : Request * outcome Response) : Prop :=
  match ro.2 with
  | Return _ => True
  | Raise _ => False
  end.

#[export] Instance returned_dec ro : Decision (returned ro).
Proof. unfold returned. destruct (ro.2); apply _. Defined.

(** The label pairs of the measured requests of a log. *)
Definition latency_series (log : list (Request * outcome Response))
    : gset (string * string) :=
  list_to_set
    (omap (fun ro : Request * outcome Response =>
             if String.eqb (path ro.1) "/metrics" then None
             else Some (method ro.1, path ro.1)) log).

End Ledger.

(* ===================================================================== *)
(** * Proofs: one request *)
(* ===================================================================== *)

Lemma eqb_metrics_false (request : Request) :
  path request <> "/metrics" -> String.eqb (path request) "/metrics" = false.
Proof. intros Hne. now apply String.eqb_neq. Qed.

(** [dispatch] is [enter], then the await, then [resume]: the two turns of
    the event loop are the code of [dispatch] cut at its await. *)
Lemma dispatch_enter_resume {W : Type} `{Instruments W}
    (call_next : Request -> py W Response) (request : Request) (w : W) :
  path request <> "/metrics" ->
  dispatch call_next request w =
    match enter w with
    | (Return start, w1) =>
        let (o, w2) := call_next request w1 in resume request start o w2
    | (Raise e, w1) => (Raise e, w1)
    end.
Proof.
  intros Hne. unfold dispatch, enter, resume.
  rewrite (eqb_metrics_false _ Hne).
  unfold bind, ret, try_finally, try_suite, bind.
  destruct (perf_counter w) as [[start | e] w0]; [| reflexivity].
  destruct (INPROGRESS_inc w0) as [[[] | e] w1]; [| reflexivity].
  destruct (call_next request w1) as [[response | e] w2]; reflexivity.
Qed.

Section OneRequest.

Variable call_next : Request -> py World Response.
Variable request : Request.
Variable w : World.

Lemma enter_prometheus : enter w = (Return (clock w), entered w).
Proof. reflexivity. Qed.

Lemma resume_prometheus (start : float) (o : outcome Response) :
  resume request start o w = (o, released request start (counted request o w)).
Proof. destruct o as [response | e]; reflexivity. Qed.

(** The measured branch of [dispatch] on the metrics of [metrics.py], step
    by step: the gauge is raised, [call_next] runs, a returned response is
    counted, the [finally] suite observes the latency and lowers the
    gauge, and the outcome of [call_next] is the outcome of [dispatch]. *)
Lemma dispatch_measured : path request <> "/metrics" ->
  dispatch call_next request w =
    let (o, w2) := call_next request (entered w) in
    (o, released request (clock w) (counted request o w2)).
Proof.
  intros Hne. rewrite (dispatch_enter_resume _ _ _ Hne), enter_prometheus.
  destruct (call_next request (entered w)) as [o w2].
  destruct o as [response | e]; reflexivity.
Qed.

Lemma dispatch_bypass : path request = "/metrics" ->
  dispatch call_next request w = call_next request w.
Proof. intros Heq. unfold dispatch. rewrite Heq. reflexivity. Qed.

End OneRequest.

Lemma clock_counted request o w : clock (counted request o w) = clock w.
Proof. destruct o; reflexivity. Qed.

Lemma INPROGRESS_counted request o w :
  INPROGRESS (counted request o w) = INPROGRESS w.
Proof. destruct o; reflexivity. Qed.

Lemma REQUEST_LATENCY_counted request o w :
  REQUEST_LATENCY (counted request o w) = REQUEST_LATENCY w.
Proof. destruct o; reflexivity. Qed.

(* ===================================================================== *)
(** * The interceptor on one request *)
(* ===================================================================== *)

(** C6. The interceptor is transparent: whatever the path, the outcome
    [dispatch] gives its caller is the outcome of [call_next] itself, the
    same response object on a return and the same exception on a fault.
    ([call_next] runs in the world [dispatch] hands it: unchanged on the
    bypass, with the gauge raised otherwise.) *)
Theorem dispatch_transparent (call_next : Request -> py World Response)
    (request : Request) (w : World) :
  (dispatch call_next request w).1 =
    (call_next request
       (if String.eqb (path request) "/metrics" then w else entered w)).1.
Proof.
  destruct (String.eqb (path request) "/metrics") eqn:E.
  - apply String.eqb_eq in E. now rewrite dispatch_bypass.
  - apply String.eqb_neq in E. rewrite dispatch_measured by assumption.
    now destruct (call_next request (entered w)).
Qed.

(** C1, as stated, fails: a measured request whose handler raises is not
    counted at all. After [GET /work] with a failing handler on a fresh
    process, [dispatch] re-raises the handler's exception and
    [http_requests_total] is still empty, so no series, with status "500"
    or any other, was incremented; the latency was observed. *)
Lemma fault_is_not_counted :
  let r := dispatch failing_route GET_work (world (boot 0%float)) in
  r.1 = Raise RuntimeError
  /\ REQUEST_COUNT r.2 = ∅
  /\ counter_value (REQUEST_COUNT r.2) ("GET", "/work", "500") = 0
  /\ length (observations (REQUEST_LATENCY r.2) ("GET", "/work")) = 1%nat.
Proof. vm_compute. repeat split; reflexivity. Qed.

(** C1, amended. For a measured request: when [call_next] returns a
    response, [http_requests_total] is incremented exactly once, by 1, on
    the series [(method, path, str(status))], where [status] is the
    response's [status_code] and 500 when the response has no such
    attribute, and no other series changes; when [call_next] raises, the
    counter is left as it was. *)
Theorem counted_once_on_return (call_next : Request -> py World Response)
    (request : Request) (w : World) :
  path request <> "/metrics" ->
  let (o, w2) := call_next request (entered w) in
  let after := REQUEST_COUNT (dispatch call_next request w).2 in
  match o with
  | Return response =>
      let labels :=
        (method request, path request,
         str (match status_code response with
              | Some code => code
              | None => 500
              end)) in
      after = <[labels := counter_value (REQUEST_COUNT w2) labels + 1]>
                (REQUEST_COUNT w2)
  | Raise _ => after = REQUEST_COUNT w2
  end.
Proof.
  intros Hne. rewrite dispatch_measured by assumption.
  destruct (call_next request (entered w)) as [[response | e] w2];
    reflexivity.
Qed.

Lemma counted_once_on_return_witness :
  path GET_work <> "/metrics"
  /\ REQUEST_COUNT (dispatch slow_route GET_work sample_world).2
     = {[ ("GET", "/work", "200") := 4 ]}.
Proof.
  split; [discriminate |].
  pose proof (counted_once_on_return slow_route GET_work sample_world) as H.
  cbv beta in H. specialize (H ltac:(discriminate)).
  change (slow_route GET_work (entered sample_world))
    with (Return {| status_code := Some 200; content := Raw "done" |},
          set_clock (PrimFloat.add 10%float 0.25%float)
            (entered sample_world)) in H.
  cbv iota beta zeta in H. rewrite H.
  apply map_eq. intros k. vm_compute REQUEST_COUNT.
  reflexivity.
Defined.

(** C5. For a measured request the latency histogram receives exactly one
    observation, on the series [(method, path)]: the clock when
    [call_next] has ended minus the clock read on entry, before the gauge
    was raised. It is recorded whether [call_next] returned or raised, and
    no other series changes. *)
Theorem latency_observed_once (call_next : Request -> py World Response)
    (request : Request) (w : World) :
  path request <> "/metrics" ->
  let (o, w2) := call_next request (entered w) in
  let labels := (method request, path request) in
  clock (entered w) = clock w
  /\ REQUEST_LATENCY (dispatch call_next request w).2 =
       <[labels := (observations (REQUEST_LATENCY w2) labels
                    ++ [PrimFloat.sub (clock w2) (clock w)])%list]>
         (REQUEST_LATENCY w2).
Proof.
  intros Hne. rewrite dispatch_measured by assumption.
  destruct (call_next request (entered w)) as [o w2]. cbn zeta.
  split; [reflexivity |]. cbn.
  now rewrite clock_counted, REQUEST_LATENCY_counted.
Qed.

Lemma latency_observed_once_witness :
  path GET_work <> "/metrics"
  /\ REQUEST_LATENCY (dispatch failing_route GET_work sample_world).2
     = {[ ("GET", "/work") := [0.5%float; 0.25%float; 1%float; 0%float] ]}
  /\ REQUEST_LATENCY (dispatch slow_route GET_work sample_world).2
     = {[ ("GET", "/work") := [0.5%float; 0.25%float; 1%float; 0.25%float] ]}.
Proof.
  split; [discriminate |]. split.
  - pose proof (latency_observed_once failing_route GET_work sample_world
                  ltac:(discriminate)) as H.
    change (failing_route GET_work (entered sample_world))
      with (@Raise Response RuntimeError, entered sample_world) in H.
    cbv iota beta zeta in H. destruct H as [_ H]. rewrite H.
    vm_compute. reflexivity.
  - pose proof (latency_observed_once slow_route GET_work sample_world
                  ltac:(discriminate)) as H.
    change (slow_route GET_work (entered sample_world))
      with (Return {| status_code := Some 200; content := Raw "done" |},
            set_clock (PrimFloat.add 10%float 0.25%float)
              (entered sample_world)) in H.
    cbv iota beta zeta in H. destruct H as [_ H]. rewrite H.
    vm_compute. reflexivity.
Defined.

(** C2, as stated, fails: [dispatch] has no handler around its metric
    calls. With a [REQUEST_COUNT] whose [labels(...)] call raises, a
    request whose handler returned a 200 response ends in that
    [ValueError]: the caller does not get the response. The [finally]
    suite still ran (one latency observation, the gauge back at its
    value). *)
Lemma metric_failure_reaches_caller :
  let r := dispatch (H := mislabelled) healthz_route GET_healthz
             (world (boot 0%float)) in
  healthz_route GET_healthz (entered (world (boot 0%float)))
    = (Return {| status_code := Some 200; content := Json healthz |},
       entered (world (boot 0%float)))
  /\ r.1 = Raise IncorrectLabelNames
  /\ r.1 <> Return {| status_code := Some 200; content := Json healthz |}
  /\ length (observations (REQUEST_LATENCY r.2) ("GET", "/healthz")) = 1%nat
  /\ INPROGRESS r.2 = 0.
Proof. vm_compute. repeat split; try reflexivity. discriminate. Qed.

(** C2, amended. A failure raised by a metric call inside [dispatch] is
    not caught: it propagates to the caller of [dispatch] in place of the
    outcome of the handler. For a measured request, over any metric
    objects:
    - when [INPROGRESS.inc()] raises, [dispatch] raises that exception;
    - when the counter call raises after [call_next] returned a response,
      the [finally] suite runs and [dispatch] raises that exception: the
      response is not returned;
    - when the histogram call raises in the [finally] suite, [dispatch]
      raises that exception, whatever the [try] suite had produced;
    - when [INPROGRESS.dec()] raises, likewise. *)
Theorem metric_failure_propagates {W : Type} (I : Instruments W)
    (call_next : Request -> py W Response) (request : Request) (w : W) :
  path request <> "/metrics" ->
  (forall start w0 e w1,
      perf_counter w = (Return start, w0) ->
      INPROGRESS_inc w0 = (Raise e, w1) ->
      dispatch call_next request w = (Raise e, w1))
  /\ (forall start w0 w1 response w2 e w3 w4,
      perf_counter w = (Return start, w0) ->
      INPROGRESS_inc w0 = (Return tt, w1) ->
      call_next request w1 = (Return response, w2) ->
      REQUEST_COUNT_inc (method request) (path request)
        (str (getattr_status_code response 500)) w2 = (Raise e, w3) ->
      finally_suite request start w3 = (Return tt, w4) ->
      dispatch call_next request w = (Raise e, w4))
  /\ (forall start w0 w1 o w3 now w4 e w5,
      perf_counter w = (Return start, w0) ->
      INPROGRESS_inc w0 = (Return tt, w1) ->
      try_suite call_next request w1 = (o, w3) ->
      perf_counter w3 = (Return now, w4) ->
      REQUEST_LATENCY_observe (method request) (path request)
        (PrimFloat.sub now start) w4 = (Raise e, w5) ->
      dispatch call_next request w = (Raise e, w5))
  /\ (forall start w0 w1 o w3 now w4 w5 e w6,
      perf_counter w = (Return start, w0) ->
      INPROGRESS_inc w0 = (Return tt, w1) ->
      try_suite call_next request w1 = (o, w3) ->
      perf_counter w3 = (Return now, w4) ->
      REQUEST_LATENCY_observe (method request) (path request)
        (PrimFloat.sub now start) w4 = (Return tt, w5) ->
      INPROGRESS_dec w5 = (Raise e, w6) ->
      dispatch call_next request w = (Raise e, w6)).
Proof.
  intros Hne. unfold dispatch. rewrite (eqb_metrics_false _ Hne).
  repeat split.
  - intros start w0 e w1 H0 H1. unfold bind. now rewrite H0, H1.
  - intros start w0 w1 response w2 e w3 w4 H0 H1 H2 H3 H4.
    unfold bind at 1 2. rewrite H0, H1.
    unfold try_finally, try_suite, bind. now rewrite H2, H3, H4.
  - intros start w0 w1 o w3 now w4 e w5 H0 H1 H2 H3 H4.
    unfold bind at 1 2. rewrite H0, H1.
    unfold try_finally. rewrite H2.
    unfold finally_suite, bind. now rewrite H3, H4.
  - intros start w0 w1 o w3 now w4 w5 e w6 H0 H1 H2 H3 H4 H5.
    unfold bind at 1 2. rewrite H0, H1.
    unfold try_finally. rewrite H2.
    unfold finally_suite, bind. now rewrite H3, H4, H5.
Qed.

Lemma metric_failure_propagates_witness :
  path GET_healthz <> "/metrics"
  /\ (dispatch (H := mislabelled) healthz_route GET_healthz sample_world).1
     = Raise IncorrectLabelNames.
Proof.
  split; [discriminate |].
  destruct (metric_failure_propagates mislabelled healthz_route GET_healthz
              sample_world ltac:(discriminate)) as (_ & Hcount & _).
  erewrite Hcount; [reflexivity | reflexivity | reflexivity | reflexivity
                   | reflexivity | vm_compute; reflexivity].
Defined.

(** C10, as stated, fails: a request to a path other than ["/metrics"]
    is not always counted. [GET /db] with a handler that raises, on a
    fresh process, takes the measured branch (the gauge is raised while
    the handler runs and one latency observation is recorded) and leaves
    [http_requests_total] empty: the request is counted under no status
    code. *)
Lemma faulting_request_is_measured_not_counted :
  let r := dispatch failing_route GET_db (world (boot 0%float)) in
  path GET_db <> "/metrics"
  /\ INPROGRESS (entered (world (boot 0%float))) = 1
  /\ length (observations (REQUEST_LATENCY r.2) ("GET", "/db")) = 1%nat
  /\ REQUEST_COUNT r.2 = ∅
  /\ counter_total (REQUEST_COUNT r.2) "GET" "/db" = 0.
Proof. vm_compute. repeat split; try reflexivity. discriminate. Qed.

(** C10, amended. Only the exact path ["/metrics"] is bypassed. A request
    to any other path takes the measured branch: the gauge is raised
    while [call_next] runs and one latency observation is added to the
    series of its [(method, path)], whether [call_next] returns or
    raises; it is counted in [http_requests_total], once, when
    [call_next] returns a response, and not counted when [call_next]
    raises. In particular ["/healthz"] is measured: a [GET /healthz],
    whose handler returns its 200 response, raises the gauge while it
    runs, is counted under [("GET", "/healthz", "200")] and adds one
    observation under [("GET", "/healthz")]. *)
Theorem only_metrics_is_bypassed :
  (forall (call_next : Request -> py World Response) request w,
      path request <> "/metrics" ->
      let (o, w2) := call_next request (entered w) in
      let after := (dispatch call_next request w).2 in
      INPROGRESS (entered w) = INPROGRESS w + 1
      /\ length (observations (REQUEST_LATENCY after)
                   (method request, path request))
         = S (length (observations (REQUEST_LATENCY w2)
                        (method request, path request)))
      /\ (forall response, o = Return response ->
           counter_value (REQUEST_COUNT after) (count_labels request response)
           = counter_value (REQUEST_COUNT w2) (count_labels request response)
             + 1)
      /\ (forall e, o = Raise e -> REQUEST_COUNT after = REQUEST_COUNT w2))
  /\ (forall w,
      let request := {| method := "GET"; path := "/healthz" |} in
      let r := dispatch healthz_route request w in
      healthz_route request (entered w)
        = (Return {| status_code := Some 200; content := Json healthz |},
           entered w)
      /\ r.1 = Return {| status_code := Some 200; content := Json healthz |}
      /\ counter_value (REQUEST_COUNT r.2) ("GET", "/healthz", "200")
         = counter_value (REQUEST_COUNT w) ("GET", "/healthz", "200") + 1
      /\ length (observations (REQUEST_LATENCY r.2) ("GET", "/healthz"))
         = S (length (observations (REQUEST_LATENCY w) ("GET", "/healthz")))
      /\ INPROGRESS r.2 = INPROGRESS w).
Proof.
  split.
  - intros call_next request w Hne. rewrite dispatch_measured by assumption.
    destruct (call_next request (entered w)) as [o w2]. cbn zeta.
    split; [reflexivity |]. split; [| split].
    + cbn. rewrite REQUEST_LATENCY_counted.
      unfold observations at 1. rewrite lookup_insert_eq. cbn.
      rewrite length_app. cbn. lia.
    + intros response ->. cbn.
      unfold counter_value at 1. now rewrite lookup_insert_eq.
    + intros e ->. reflexivity.
  - intros w request r. subst r.
    rewrite dispatch_measured by (subst request; discriminate).
    subst request. cbn.
    split; [reflexivity |]. split; [reflexivity |]. split.
    + unfold count_labels. cbn.
      unfold counter_value at 1. now rewrite lookup_insert_eq.
    + split; [| lia].
      unfold observations at 1. rewrite lookup_insert_eq. cbn.
      rewrite length_app. cbn. lia.
Qed.

Lemma only_metrics_is_bypassed_witness :
  path GET_healthz <> "/metrics"
  /\ counter_value
       (REQUEST_COUNT (dispatch slow_route GET_healthz sample_world).2)
       ("GET", "/healthz", "200") = 1
  /\ REQUEST_COUNT (dispatch failing_route GET_db sample_world).2
     = REQUEST_COUNT sample_world.
Proof.
  destruct only_metrics_is_bypassed as [Hany _].
  split; [discriminate |]. split.
  - specialize (Hany slow_route GET_healthz sample_world ltac:(discriminate)).
    change (slow_route GET_healthz (entered sample_world))
      with (Return {| status_code := Some 200; content := Raw "done" |},
            set_clock (PrimFloat.add 10%float 0.25%float)
              (entered sample_world)) in Hany.
    cbv iota beta zeta in Hany. destruct Hany as (_ & _ & Hany & _).
    exact (Hany _ eq_refl).
  - specialize (Hany failing_route GET_db sample_world ltac:(discriminate)).
    change (failing_route GET_db (entered sample_world))
      with (@Raise Response RuntimeError, entered sample_world) in Hany.
    cbv iota beta zeta in Hany. destruct Hany as (_ & _ & _ & Hany).
    exact (Hany _ eq_refl).
Defined.

(* ===================================================================== *)
(** * Proofs: the event loop *)
(* ===================================================================== *)

Section Bookkeeping.

Lemma measured_inflight_app (ts us : list task) :
  measured_inflight (ts ++ us) = measured_inflight ts + measured_inflight us.
Proof.
  induction ts as [| [r st | r] ts IH]; cbn; [reflexivity | ..];
    fold (measured_inflight (ts ++ us)); fold (measured_inflight ts); lia.
Qed.

Lemma measured_inflight_delete (ts : list task) (i : nat) (t : task) :
  ts !! i = Some t ->
  measured_inflight (delete i ts) =
    measured_inflight ts - measured_inflight [t].
Proof.
  intros Hi. rewrite <- (take_drop_middle ts i t Hi) at 2.
  rewrite delete_take_drop, !measured_inflight_app.
  change (t :: drop (S i) ts) with ([t] ++ drop (S i) ts).
  rewrite measured_inflight_app. lia.
Qed.

Lemma task_ok_delete (ts : list task) (i : nat) :
  Forall task_ok ts -> Forall task_ok (delete i ts).
Proof.
  apply Forall_delete.
Qed.

Lemma amount_on_app labels (xs ys : list ((string * string * string) * Z)) :
  amount_on labels (xs ++ ys) = amount_on labels xs + amount_on labels ys.
Proof.
  induction xs as [| [l a] xs IH]; cbn; [reflexivity |].
  fold (amount_on labels (xs ++ ys)); fold (amount_on labels xs).
  case_decide; lia.
Qed.

Lemma increments_app (xs ys : list (Request * outcome Response)) :
  increments (xs ++ ys) = (increments xs ++ increments ys)%list.
Proof. apply omap_app. Qed.

Lemma counter_value_insert c (k l : string * string * string) (v : Z) :
  counter_value (<[k := v]> c) l =
    if decide (k = l) then v else counter_value c l.
Proof.
  unfold counter_value. rewrite lookup_insert. now case_decide.
Qed.

Lemma counter_total_insert (c : gmap (string * string * string) Z)
    (k : string * string * string) (a : Z) (m p : string) :
  counter_total (<[k := counter_value c k + a]> c) m p =
    counter_total c m p + (if decide (k.1 = (m, p)) then a else 0).
Proof.
  unfold counter_total, counter_value.
  set (f := fun (labels : string * string * string) (v acc : Z) =>
              if decide (labels.1 = (m, p)) then v + acc else acc).
  assert (Hcomm : forall j1 j2 z1 z2 y, f j1 z1 (f j2 z2 y) = f j2 z2 (f j1 z1 y)).
  { intros j1 j2 z1 z2 y. unfold f.
    repeat case_decide; lia. }
  destruct (c !! k) as [z |] eqn:E; cbn [default].
  - rewrite <- insert_delete_eq.
    rewrite map_fold_insert_L;
      [| intros; apply Hcomm | apply lookup_delete_eq].
    rewrite (map_fold_delete_L f 0 k z c); [| intros; apply Hcomm | exact E].
    generalize (map_fold f 0 (delete k c)). intros acc.
    unfold f, id. destruct (decide (k.1 = (m, p))); lia.
  - rewrite map_fold_insert_L; [| intros; apply Hcomm | exact E].
    generalize (map_fold f 0 c). intros acc.
    unfold f, id. destruct (decide (k.1 = (m, p))); lia.
Qed.

End Bookkeeping.

(** Every enabled event is one of five cases, with the next state written
    out on the metrics of [metrics.py]. *)
Lemma step_cases (s s' : Sys) (ev : event) :
  step s ev = Some s' ->
  (exists r, ev = Arrive r /\ path r = "/metrics"
     /\ s' = {| world := world s;
                inflight := inflight s ++ [Bypassed r];
                settled := settled s |})
  \/ (exists r, ev = Arrive r /\ path r <> "/metrics"
     /\ s' = {| world := entered (world s);
                inflight := inflight s ++ [Measured r (clock (world s))];
                settled := settled s |})
  \/ (exists t, ev = Tick t
     /\ s' = {| world := set_clock t (world s);
                inflight := inflight s;
                settled := settled s |})
  \/ (exists i o r, ev = Resolve i o /\ inflight s !! i = Some (Bypassed r)
     /\ s' = {| world := world s;
                inflight := delete i (inflight s);
                settled := settled s ++ [(r, o)] |})
  \/ (exists i o r start, ev = Resolve i o
     /\ inflight s !! i = Some (Measured r start)
     /\ s' = {| world := released r start (counted r o (world s));
                inflight := delete i (inflight s);
                settled := settled s ++ [(r, o)] |}).
Proof.
  destruct ev as [r | t | i o]; cbn [step].
  - destruct (String.eqb (path r) "/metrics") eqn:E.
    + apply String.eqb_eq in E. intros [= <-]. left. eauto.
    + apply String.eqb_neq in E. rewrite enter_prometheus.
      intros [= <-]. right; left. eauto.
  - intros [= <-]. do 2 right; left. eauto.
  - destruct (inflight s !! i) as [[r start | r] |] eqn:E; [| | discriminate].
    + rewrite resume_prometheus. intros [= <-].
      do 4 right. exists i, o, r, start. auto.
    + intros [= <-]. do 3 right; left. exists i, o, r. auto.
Qed.

(** A property kept by every step is kept by every schedule. *)
Lemma run_invariant (P : Sys -> Prop) :
  (forall s ev s', P s -> step s ev = Some s' -> P s') ->
  forall evs s s', P s -> run s evs = Some s' -> P s'.
Proof.
  intros Hstep evs. induction evs as [| ev evs IH]; intros s s' HP Hrun.
  - cbn in Hrun. now inversion Hrun; subst.
  - cbn in Hrun. destruct (step s ev) as [s1 |] eqn:E; [| discriminate].
    eapply IH; [| exact Hrun]. eapply Hstep; eauto.
Qed.

Lemma step_task_ok (s s' : Sys) (ev : event) :
  Forall task_ok (inflight s) -> step s ev = Some s' ->
  Forall task_ok (inflight s').
Proof.
  intros Hok Hstep.
  destruct (step_cases _ _ _ Hstep)
    as [(r & -> & Hr & ->) | [(r & -> & Hr & ->) | [(t & -> & ->)
       | [(i & o & r & -> & Hi & ->) | (i & o & r & start & -> & Hi & ->)]]]];
    cbn [inflight]; auto using task_ok_delete.
  - apply Forall_app. split; [assumption |]. now repeat constructor.
  - apply Forall_app. split; [assumption |]. now repeat constructor.
Qed.

Lemma run_task_ok (evs : list event) (s s' : Sys) :
  Forall task_ok (inflight s) -> run s evs = Some s' ->
  Forall task_ok (inflight s').
Proof.
  apply (run_invariant (fun s => Forall task_ok (inflight s))).
  intros. eapply step_task_ok; eauto.
Qed.

(** The sample schedule runs to its end and leaves nothing in flight. *)
Lemma sample_schedule_runs :
  exists s, run (boot 0%float) sample_schedule = Some s
            /\ inflight s = []
            /\ settled s <> []
            /\ length (observations (REQUEST_LATENCY (world s))
                         ("GET", "/work")) = 1%nat
            /\ amount_on ("GET", "/healthz", "200") (increments (settled s))
               = 1.
Proof.
  vm_compute. eexists. split; [reflexivity |].
  repeat split; try reflexivity. discriminate.
Qed.

Lemma observations_insert h (k l : string * string) (v : list float) :
  observations (<[k := v]> h) l =
    if decide (k = l) then v else observations h l.
Proof.
  unfold observations. rewrite lookup_insert. now case_decide.
Qed.

Lemma step_gauge (s s' : Sys) (ev : event) :
  step s ev = Some s' ->
  INPROGRESS (world s') - measured_inflight (inflight s') =
    INPROGRESS (world s) - measured_inflight (inflight s).
Proof.
  intros Hstep.
  destruct (step_cases _ _ _ Hstep)
    as [(r & -> & Hr & ->) | [(r & -> & Hr & ->) | [(t & -> & ->)
       | [(i & o & r & -> & Hi & ->) | (i & o & r & start & -> & Hi & ->)]]]];
    cbn [world inflight].
  - rewrite measured_inflight_app. cbn. lia.
  - rewrite measured_inflight_app. cbn. lia.
  - reflexivity.
  - rewrite (measured_inflight_delete _ _ _ Hi). cbn. lia.
  - rewrite (measured_inflight_delete _ _ _ Hi). cbn.
    rewrite INPROGRESS_counted. lia.
Qed.

(** C3. For a measured request the gauge is raised by one before
    [call_next] runs and lowered by one after it has ended, whether it
    returned or raised; so a handler that leaves the gauge alone leaves it,
    after [dispatch], at its value before. And over the event loop: after
    any schedule of arrivals, clock ticks and resolutions (responses,
    faults, cancellations) that starts and ends with no request in flight,
    the gauge is back at the value it started from. *)
Theorem gauge_balanced :
  (forall (call_next : Request -> py World Response) request w,
      path request <> "/metrics" ->
      let (o, w2) := call_next request (entered w) in
      INPROGRESS (entered w) = INPROGRESS w + 1
      /\ INPROGRESS (dispatch call_next request w).2 = INPROGRESS w2 - 1
      /\ (INPROGRESS w2 = INPROGRESS (entered w) ->
          INPROGRESS (dispatch call_next request w).2 = INPROGRESS w))
  /\ (forall s0 evs s,
      inflight s0 = [] -> run s0 evs = Some s -> inflight s = [] ->
      INPROGRESS (world s) = INPROGRESS (world s0)).
Proof.
  split.
  - intros call_next request w Hne. rewrite dispatch_measured by assumption.
    destruct (call_next request (entered w)) as [o w2]. cbn.
    rewrite INPROGRESS_counted. repeat split; lia.
  - intros s0 evs s H0 Hrun Hs.
    pose proof (run_invariant
      (fun s => INPROGRESS (world s) - measured_inflight (inflight s)
                = INPROGRESS (world s0) - measured_inflight (inflight s0)))
      as Hinv.
    cbv beta in Hinv.
    specialize (Hinv ltac:(intros ? ? ? HP Hst; rewrite <- HP;
                           exact (step_gauge _ _ _ Hst))
                     evs s0 s eq_refl Hrun).
    rewrite H0, Hs in Hinv. cbn in Hinv. lia.
Qed.

Lemma gauge_balanced_witness :
  path GET_work <> "/metrics"
  /\ INPROGRESS (dispatch failing_route GET_work sample_world).2 = 2
  /\ exists s, run (boot 0%float) sample_schedule = Some s
               /\ inflight s = [] /\ INPROGRESS (world s) = 0.
Proof.
  destruct gauge_balanced as [Hone Hloop].
  split; [discriminate |]. split.
  - specialize (Hone failing_route GET_work sample_world ltac:(discriminate)).
    change (failing_route GET_work (entered sample_world))
      with (@Raise Response RuntimeError, entered sample_world) in Hone.
    cbv iota beta zeta in Hone. destruct Hone as (_ & _ & Hone).
    rewrite Hone; reflexivity.
  - destruct sample_schedule_runs as (s & Hrun & Hin & _).
    exists s. split; [exact Hrun |]. split; [exact Hin |].
    exact (Hloop (boot 0%float) sample_schedule s eq_refl Hrun Hin).
Defined.

Lemma step_scrape_free (s s' : Sys) (ev : event) :
  Forall task_ok (inflight s) /\ scrape_free (world s) ->
  step s ev = Some s' ->
  Forall task_ok (inflight s') /\ scrape_free (world s').
Proof.
  intros [Hok Hfree] Hstep. split; [eapply step_task_ok; eauto |].
  destruct (step_cases _ _ _ Hstep)
    as [(r & -> & Hr & ->) | [(r & -> & Hr & ->) | [(t & -> & ->)
       | [(i & o & r & -> & Hi & ->) | (i & o & r & start & -> & Hi & ->)]]]];
    cbn [world]; try exact Hfree.
  assert (Hr : path r <> "/metrics").
  { apply (Forall_lookup_1 _ _ _ _ Hok Hi). }
  destruct Hfree as [Hc Hl]. split.
  - intros m p st. cbn. destruct o as [response | e]; cbn; [| apply Hc].
    unfold count_labels. rewrite lookup_insert. case_decide as Heq.
    + intros _. now inversion Heq; subst.
    + apply Hc.
  - intros m p. cbn. rewrite REQUEST_LATENCY_counted, lookup_insert.
    case_decide as Heq.
    + intros _. now inversion Heq; subst.
    + apply Hl.
Qed.

(** C4. A request to ["/metrics"] is passed straight to [call_next]:
    [dispatch] is [call_next] on it, outcome and state, so the interceptor
    adds no counter increment, no observation and no gauge change of its
    own. Consequently, in a process run from its start through any
    schedule of the event loop, no series of [http_requests_total] or of
    [http_request_duration_seconds] carries ["/metrics"] as its path
    label. *)
Theorem scrape_path_unmeasured :
  (forall (call_next : Request -> py World Response) request w,
      path request = "/metrics" ->
      dispatch call_next request w = call_next request w)
  /\ (forall t evs s, run (boot t) evs = Some s -> scrape_free (world s)).
Proof.
  split.
  - intros. now apply dispatch_bypass.
  - intros t evs s Hrun.
    refine (proj2 (run_invariant
      (fun s => Forall task_ok (inflight s) /\ scrape_free (world s))
      (fun s1 ev s2 HP Hst => step_scrape_free s1 s2 ev HP Hst)
      evs (boot t) s _ Hrun)).
    split; [constructor |].
    split; cbn; intros; rewrite lookup_empty in *;
      match goal with H : is_Some None |- _ => destruct H; discriminate end.
Qed.

Lemma scrape_path_unmeasured_witness :
  path GET_metrics = "/metrics"
  /\ dispatch slow_route GET_metrics sample_world
     = slow_route GET_metrics sample_world
  /\ exists s, run (boot 0%float) sample_schedule = Some s
               /\ settled s <> [] /\ scrape_free (world s).
Proof.
  destruct scrape_path_unmeasured as [Hone Hloop].
  split; [reflexivity |]. split.
  - apply Hone. reflexivity.
  - destruct sample_schedule_runs as (s & Hrun & _ & Hlog & _).
    exists s. split; [exact Hrun |]. split; [exact Hlog |].
    exact (Hloop 0%float sample_schedule s Hrun).
Defined.

Lemma amount_on_perm labels (xs ys : list ((string * string * string) * Z)) :
  xs ≡ₚ ys -> amount_on labels xs = amount_on labels ys.
Proof.
  induction 1 as [| [l a] xs ys _ IH | [l a] [l' a'] xs | xs ys zs _ IH1 _ IH2];
    cbn.
  - reflexivity.
  - fold (amount_on labels xs); fold (amount_on labels ys). now rewrite IH.
  - fold (amount_on labels xs). repeat case_decide; lia.
  - congruence.
Qed.

(** Increments applied in sequence: none is refused when the amounts are
    non-negative, and each series ends at its value plus what was sent to
    it. *)
Lemma apply_increments_sum (incs : list ((string * string * string) * Z)) :
  Forall (fun la => 0 <= la.2) incs ->
  forall w, exists w',
    apply_increments incs w = (Return tt, w')
    /\ forall labels,
        counter_value (REQUEST_COUNT w') labels =
          counter_value (REQUEST_COUNT w) labels + amount_on labels incs.
Proof.
  induction 1 as [| [l a] incs Ha _ IH]; intros w.
  - exists w. split; [reflexivity |]. intros labels. cbn. lia.
  - cbn in Ha. cbn [apply_increments]. unfold bind, counter_increment.
    destruct (a <? 0) eqn:E; [apply Z.ltb_lt in E; lia |].
    destruct (IH (set_REQUEST_COUNT
                    (<[l := counter_value (REQUEST_COUNT w) l + a]>
                       (REQUEST_COUNT w)) w)) as (w' & Hrun & Hval).
    exists w'. split; [exact Hrun |]. intros labels.
    rewrite Hval. cbn. fold (amount_on labels incs).
    rewrite counter_value_insert.
    destruct (decide (l = labels)) as [<- |]; lia.
Qed.

Lemma step_counter (s s' : Sys) (ev : event) :
  Forall task_ok (inflight s) ->
  step s ev = Some s' ->
  forall labels,
    counter_value (REQUEST_COUNT (world s')) labels
      - amount_on labels (increments (settled s')) =
    counter_value (REQUEST_COUNT (world s)) labels
      - amount_on labels (increments (settled s)).
Proof.
  intros Hok Hstep labels.
  destruct (step_cases _ _ _ Hstep)
    as [(r & -> & Hr & ->) | [(r & -> & Hr & ->) | [(t & -> & ->)
       | [(i & o & r & -> & Hi & ->) | (i & o & r & start & -> & Hi & ->)]]]];
    cbn [world settled]; try reflexivity.
  - assert (Hr : path r = "/metrics").
    { apply (Forall_lookup_1 _ _ _ _ Hok Hi). }
    rewrite increments_app, amount_on_app. cbn.
    destruct o as [response | e]; cbn; [| lia].
    rewrite Hr. cbn. lia.
  - assert (Hr : path r <> "/metrics").
    { apply (Forall_lookup_1 _ _ _ _ Hok Hi). }
    rewrite increments_app, amount_on_app. cbn.
    destruct o as [response | e]; cbn; [| lia].
    rewrite (eqb_metrics_false _ Hr). cbn.
    rewrite counter_value_insert.
    destruct (decide (count_labels r response = labels)) as [<- |]; lia.
Qed.

(** C8. No counter increment is lost.
    - Increments with non-negative amounts, applied one at a time in any
      order (each is one uninterrupted call), are all accepted and leave
      every series at its initial value plus the sum of the amounts sent
      to it.
    - In a process run from its start through any schedule of the event
      loop, with any number of requests in flight at once, every series of
      [http_requests_total] holds exactly the sum of the increments of the
      requests that ended: 1 for each measured request that returned,
      under the labels of its response. *)
Theorem no_lost_increments :
  (forall incs order w,
      Forall (fun la => 0 <= la.2) incs -> order ≡ₚ incs ->
      exists w',
        apply_increments order w = (Return tt, w')
        /\ forall labels,
            counter_value (REQUEST_COUNT w') labels =
              counter_value (REQUEST_COUNT w) labels + amount_on labels incs)
  /\ (forall t evs s,
      run (boot t) evs = Some s ->
      forall labels,
        counter_value (REQUEST_COUNT (world s)) labels =
          amount_on labels (increments (settled s))).
Proof.
  split.
  - intros incs order w Hpos Hperm.
    assert (Hpos' : Forall (fun la => 0 <= la.2) order).
    { rewrite Hperm. exact Hpos. }
    destruct (apply_increments_sum order Hpos' w) as (w' & Hrun & Hval).
    exists w'. split; [exact Hrun |]. intros labels.
    rewrite Hval. f_equal. now apply amount_on_perm.
  - intros t evs s Hrun labels.
    pose proof (run_invariant
      (fun s => Forall task_ok (inflight s)
                /\ counter_value (REQUEST_COUNT (world s)) labels
                   - amount_on labels (increments (settled s)) = 0))
      as Hinv.
    cbv beta in Hinv.
    assert (Hgoal : Forall task_ok (inflight s)
                /\ counter_value (REQUEST_COUNT (world s)) labels
                   - amount_on labels (increments (settled s)) = 0).
    { apply (Hinv ltac:(intros s1 ev s2 [Hok HP] Hst; split;
                        [eapply step_task_ok; eauto
                        | rewrite (step_counter _ _ _ Hok Hst); exact HP])
                  evs (boot t) s); [| exact Hrun].
      split; [constructor | reflexivity]. }
    lia.
Qed.

Lemma no_lost_increments_witness :
  (exists w',
      apply_increments
        [ (("GET", "/db", "200"), 2); (("GET", "/work", "200"), 5);
          (("GET", "/work", "200"), 0); (("GET", "/work", "200"), 1) ]
        sample_world = (Return tt, w')
      /\ counter_value (REQUEST_COUNT w') ("GET", "/work", "200") = 3 + 6)
  /\ exists s, run (boot 0%float) sample_schedule = Some s
               /\ counter_value (REQUEST_COUNT (world s))
                    ("GET", "/healthz", "200") = 1.
Proof.
  destruct no_lost_increments as [Hseq Hloop]. split.
  - destruct (Hseq
      [ (("GET", "/work", "200"), 5); (("GET", "/work", "200"), 1);
        (("GET", "/db", "200"), 2); (("GET", "/work", "200"), 0) ]
      [ (("GET", "/db", "200"), 2); (("GET", "/work", "200"), 5);
        (("GET", "/work", "200"), 0); (("GET", "/work", "200"), 1) ]
      sample_world) as (w' & Hrun & Hval).
    + repeat constructor; cbn; lia.
    + etrans; [apply perm_swap |]. apply perm_skip.
      symmetry. apply (Permutation_cons_append [_; _]).
    + exists w'. split; [exact Hrun |]. rewrite Hval. reflexivity.
  - destruct sample_schedule_runs as (s & Hrun & _ & _ & _ & Hsum).
    exists s. split; [exact Hrun |].
    rewrite (Hloop 0%float sample_schedule s Hrun). exact Hsum.
Defined.

Lemma step_total (s s' : Sys) (ev : event) :
  step s ev = Some s' ->
  forall m p,
    counter_total (REQUEST_COUNT (world s)) m p
      <= Z.of_nat (length (observations (REQUEST_LATENCY (world s)) (m, p))) ->
    counter_total (REQUEST_COUNT (world s')) m p
      <= Z.of_nat (length (observations (REQUEST_LATENCY (world s')) (m, p))).
Proof.
  intros Hstep m p Hle.
  destruct (step_cases _ _ _ Hstep)
    as [(r & -> & Hr & ->) | [(r & -> & Hr & ->) | [(t & -> & ->)
       | [(i & o & r & -> & Hi & ->) | (i & o & r & start & -> & Hi & ->)]]]];
    cbn [world]; try exact Hle.
  cbn. rewrite REQUEST_LATENCY_counted, observations_insert.
  assert (Hcount :
    counter_total (REQUEST_COUNT (counted r o (world s))) m p
      <= counter_total (REQUEST_COUNT (world s)) m p
         + (if decide ((method r, path r) = (m, p)) then 1 else 0)).
  { destruct o as [response | e]; cbn.
    - rewrite counter_total_insert. unfold count_labels. cbn. lia.
    - case_decide; lia. }
  case_decide as Heq.
  - rewrite Heq in *. rewrite length_app. cbn. lia.
  - lia.
Qed.

(** C9. In a process run from its start through any schedule of the event
    loop, for every [(method, path)] the total of [http_requests_total]
    over all its [status_code] values is at most the number of
    observations of [http_request_duration_seconds] for that pair: a
    measured request is observed whenever it ends and counted only when
    its handler returned. *)
Theorem counted_at_most_observed (t : float) (evs : list event) (s : Sys) :
  run (boot t) evs = Some s ->
  forall m p,
    counter_total (REQUEST_COUNT (world s)) m p
      <= Z.of_nat (length (observations (REQUEST_LATENCY (world s)) (m, p))).
Proof.
  intros Hrun m p.
  apply (run_invariant
    (fun s => counter_total (REQUEST_COUNT (world s)) m p
      <= Z.of_nat (length (observations (REQUEST_LATENCY (world s)) (m, p))))
    ltac:(intros s1 ev s2 HP Hst; exact (step_total _ _ _ Hst m p HP))
    evs (boot t) s); [| exact Hrun].
  cbn. unfold counter_total. rewrite map_fold_empty. reflexivity.
Qed.

Lemma counted_at_most_observed_witness :
  exists s, run (boot 0%float) sample_schedule = Some s
    /\ counter_total (REQUEST_COUNT (world s)) "GET" "/work"
         <= Z.of_nat (length (observations (REQUEST_LATENCY (world s))
                                ("GET", "/work")))
    /\ length (observations (REQUEST_LATENCY (world s)) ("GET", "/work"))
         = 1%nat.
Proof.
  destruct sample_schedule_runs as (s & Hrun & _ & _ & Hobs & _).
  exists s. split; [exact Hrun |]. split; [| exact Hobs].
  exact (counted_at_most_observed 0%float sample_schedule s Hrun
           "GET" "/work").
Defined.

(* ===================================================================== *)
(** * Proofs: the log processor *)
(* ===================================================================== *)

Section Hex.

Lemma digit_cases (d : Z) : 0 <= d < 16 ->
  d = 0 \/ d = 1 \/ d = 2 \/ d = 3 \/ d = 4 \/ d = 5 \/ d = 6 \/ d = 7 \/
  d = 8 \/ d = 9 \/ d = 10 \/ d = 11 \/ d = 12 \/ d = 13 \/ d = 14 \/ d = 15.
Proof. lia. Qed.

Lemma digit_value_hex_digit (d : Z) : 0 <= d < 16 ->
  digit_value (hex_digit d) = d.
Proof.
  intros Hd. destruct (digit_cases d Hd) as
    [-> | [-> | [-> | [-> | [-> | [-> | [-> | [-> | [-> | [-> | [-> | [->
     | [-> | [-> | [-> | ->]]]]]]]]]]]]]]]; reflexivity.
Qed.

Lemma lower_hex_hex_digit (d : Z) : 0 <= d < 16 ->
  lower_hex (hex_digit d) = true.
Proof.
  intros Hd. destruct (digit_cases d Hd) as
    [-> | [-> | [-> | [-> | [-> | [-> | [-> | [-> | [-> | [-> | [-> | [->
     | [-> | [-> | [-> | ->]]]]]]]]]]]]]]]; reflexivity.
Qed.

Lemma hex_value_snoc (l : list ascii) (c : ascii) :
  hex_value (l ++ [c]) = 16 * hex_value l + digit_value c.
Proof. unfold hex_value. now rewrite fold_left_app. Qed.

Lemma hex_value_zeros (k : nat) (l : list ascii) :
  hex_value (replicate k "0"%char ++ l) = hex_value l.
Proof.
  unfold hex_value. rewrite fold_left_app. f_equal.
  induction k as [| k IH]; [reflexivity |]. cbn. exact IH.
Qed.

(** With fuel enough for the bits of [n], the digits read back as [n]. *)
Lemma hex_value_hex_digits (fuel : nat) :
  forall n, 0 <= n < 2 ^ Z.of_nat fuel -> hex_value (hex_digits fuel n) = n.
Proof.
  induction fuel as [| fuel IH]; intros n Hn.
  - cbn in Hn. assert (n = 0) as -> by lia. reflexivity.
  - cbn [hex_digits]. destruct (n <? 16) eqn:E.
    + apply Z.ltb_lt in E. cbn. rewrite digit_value_hex_digit; lia.
    + apply Z.ltb_ge in E. rewrite hex_value_snoc, IH.
      * rewrite digit_value_hex_digit by (apply Z.mod_pos_bound; lia).
        pose proof (Z.div_mod n 16). lia.
      * rewrite Nat2Z.inj_succ, Z.pow_succ_r in Hn by lia.
        split; [apply Z.div_pos; lia |].
        apply Z.div_lt_upper_bound; lia.
Qed.

Lemma hex_value_hex (n : Z) : 0 <= n -> hex_value (hex n) = n.
Proof.
  intros Hn. apply hex_value_hex_digits. split; [assumption |].
  rewrite Nat2Z.inj_succ, Z2Nat.id by apply Z.log2_nonneg.
  destruct (Z.eq_dec n 0) as [-> | Hne]; [reflexivity |].
  apply Z.log2_spec. lia.
Qed.

(** A number below [16 ^ k] has at most [k] digits. *)
Lemma length_hex_digits (fuel : nat) :
  forall (k : nat) n, (1 <= k)%nat -> 0 <= n < 16 ^ Z.of_nat k ->
    (length (hex_digits fuel n) <= k)%nat.
Proof.
  induction fuel as [| fuel IH]; intros k n Hk Hn; [cbn; lia |].
  cbn [hex_digits]. destruct (n <? 16) eqn:E; [cbn; lia |].
  apply Z.ltb_ge in E. rewrite length_app. cbn.
  destruct k as [| k]; [lia |].
  rewrite Nat2Z.inj_succ, Z.pow_succ_r in Hn by lia.
  destruct k as [| k]; [cbn in Hn; lia |].
  specialize (IH (S k) (n / 16) ltac:(lia)).
  assert (0 <= n / 16 < 16 ^ Z.of_nat (S k)).
  { split; [apply Z.div_pos; lia | apply Z.div_lt_upper_bound; lia]. }
  specialize (IH ltac:(assumption)). lia.
Qed.

Lemma lower_hex_hex_digits (fuel : nat) :
  forall n, 0 <= n -> forallb lower_hex (hex_digits fuel n) = true.
Proof.
  induction fuel as [| fuel IH]; intros n Hn; [reflexivity |].
  cbn [hex_digits]. destruct (n <? 16) eqn:E.
  - apply Z.ltb_lt in E. cbn. rewrite lower_hex_hex_digit; [reflexivity | lia].
  - apply Z.ltb_ge in E. rewrite forallb_app, IH by (apply Z.div_pos; lia).
    cbn. rewrite lower_hex_hex_digit; [reflexivity |].
    apply Z.mod_pos_bound; lia.
Qed.

Lemma forallb_zeros (k : nat) : forallb lower_hex (replicate k "0"%char) = true.
Proof. induction k as [| k IH]; [reflexivity |]. cbn. exact IH. Qed.

Lemma length_of_list_ascii (l : list ascii) :
  String.length (String.string_of_list_ascii l) = length l.
Proof. induction l as [| c l IH]; cbn; [reflexivity | now rewrite IH]. Qed.

(** An identifier of [4 * width] bits is written in exactly [width]
    characters. *)
Lemma format_0x_renders (width : nat) (n : Z) :
  (1 <= width)%nat -> 0 <= n < 16 ^ Z.of_nat width ->
  renders width n (format_0x width n).
Proof.
  intros Hw Hn. unfold renders, format_0x.
  destruct (n <? 0) eqn:E; [apply Z.ltb_lt in E; lia |].
  rewrite String.list_ascii_of_string_of_list_ascii, length_of_list_ascii.
  pose proof (length_hex_digits (S (Z.to_nat (Z.log2 n))) width n Hw Hn)
    as Hlen.
  fold (hex n) in Hlen. repeat split.
  - rewrite length_app, length_replicate. lia.
  - rewrite forallb_app, forallb_zeros.
    change (forallb lower_hex (hex n) = true).
    apply lower_hex_hex_digits. lia.
  - rewrite hex_value_zeros. apply hex_value_hex. lia.
Qed.

End Hex.

(** C7. With a valid context active, the record the processor returns has
    [trace_id = format(ctx.trace_id, "032x")] and
    [span_id = format(ctx.span_id, "016x")] and its other fields as they
    were; for a 128-bit trace identifier the former is that number in
    exactly 32 lower-case hexadecimal characters, for a 64-bit span
    identifier the latter is that number in exactly 16. With no valid
    context (none, or one that is not valid) the record is returned as it
    came: the processor adds neither field, so a record that came without
    them leaves without them. *)
Theorem trace_fields_injected (ctx : option SpanContext)
    (logger method_name : string) (event_dict : gmap string value) :
  let out := add_trace_context ctx logger method_name event_dict in
  match ctx with
  | Some c =>
      if is_valid c then
        out !! "trace_id" = Some (VStr (format_0x 32 (trace_id c)))
        /\ out !! "span_id" = Some (VStr (format_0x 16 (span_id c)))
        /\ (forall k, k <> "trace_id" -> k <> "span_id" ->
              out !! k = event_dict !! k)
        /\ (0 <= trace_id c < 2 ^ 128 ->
              renders 32 (trace_id c) (format_0x 32 (trace_id c)))
        /\ (0 <= span_id c < 2 ^ 64 ->
              renders 16 (span_id c) (format_0x 16 (span_id c)))
      else
        out = event_dict
        /\ (event_dict !! "trace_id" = None -> out !! "trace_id" = None)
        /\ (event_dict !! "span_id" = None -> out !! "span_id" = None)
  | None =>
      out = event_dict
      /\ (event_dict !! "trace_id" = None -> out !! "trace_id" = None)
      /\ (event_dict !! "span_id" = None -> out !! "span_id" = None)
  end.
Proof.
  cbv zeta. unfold add_trace_context.
  destruct ctx as [c |]; [destruct (is_valid c) |].
  - split; [| split; [| split; [| split]]].
    + rewrite lookup_insert_ne by discriminate. apply lookup_insert_eq.
    + apply lookup_insert_eq.
    + intros k Ht Hs. now rewrite !lookup_insert_ne by congruence.
    + intros Hrange. apply format_0x_renders; [lia | exact Hrange].
    + intros Hrange. apply format_0x_renders; [lia | exact Hrange].
  - repeat split; auto.
  - repeat split; auto.
Qed.

Lemma trace_fields_injected_witness :
  let c := {| trace_id := 0x0af7651916cd43dd8448eb211c80319c;
              span_id := 0xb7ad6b7169203331; is_valid := true |} in
  let out := add_trace_context (Some c) "app" "info"
               {[ "event" := VStr "work_done" ]} in
  (0 <= trace_id c < 2 ^ 128) /\ (0 <= span_id c < 2 ^ 64)
  /\ out !! "trace_id" = Some (VStr "0af7651916cd43dd8448eb211c80319c")
  /\ out !! "span_id" = Some (VStr "b7ad6b7169203331")
  /\ renders 32 (trace_id c) "0af7651916cd43dd8448eb211c80319c"
  /\ renders 16 (span_id c) "b7ad6b7169203331"
  /\ add_trace_context None "app" "info" {[ "event" := VStr "work_done" ]}
       !! "trace_id" = None.
Proof.
  intros c out.
  pose proof (trace_fields_injected (Some c) "app" "info"
                {[ "event" := VStr "work_done" ]}) as Hv.
  pose proof (trace_fields_injected None "app" "info"
                {[ "event" := VStr "work_done" ]}) as Hn.
  cbv zeta iota beta in Hv, Hn. change (is_valid c) with true in Hv.
  cbv iota in Hv. fold out in Hv.
  destruct Hv as (Ht & Hs & _ & Hrt & Hrs). destruct Hn as (_ & Hnt & _).
  assert (Htr : 0 <= trace_id c < 2 ^ 128) by (cbn; lia).
  assert (Hsr : 0 <= span_id c < 2 ^ 64) by (cbn; lia).
  split; [exact Htr |]. split; [exact Hsr |].
  split; [exact Ht |]. split; [exact Hs |].
  split; [exact (Hrt Htr) |]. split; [exact (Hrs Hsr) |].
  apply Hnt. reflexivity.
Defined.

(* ===================================================================== *)
(** * Proofs: configuration *)
(* ===================================================================== *)

Import Gunicorn Setup.

(** X1. [gunicorn_conf.py] never asks for fewer than two workers. From
    four CPUs on it asks for half of them (rounded down), so never more
    than the CPUs; up to five CPUs it asks for exactly two; and it asks
    for more workers than there are CPUs exactly on a host with fewer than
    two. *)
Theorem workers_bounds (cpu_count : Z) :
  2 <= workers cpu_count
  /\ (4 <= cpu_count ->
      workers cpu_count = cpu_count / 2 /\ 2 * workers cpu_count <= cpu_count)
  /\ (cpu_count <= 5 -> workers cpu_count = 2)
  /\ (cpu_count < workers cpu_count <-> cpu_count < 2).
Proof.
  unfold workers. pose proof (Z.div_mod cpu_count 2 ltac:(lia)) as Hdm.
  pose proof (Z.mod_pos_bound cpu_count 2 ltac:(lia)) as Hm.
  repeat split; intros; lia.
Qed.

Lemma workers_bounds_witness :
  4 <= 9 /\ 1 <= 5 /\ workers 9 = 4 /\ workers 1 = 2 /\ 1 < workers 1.
Proof.
  destruct (workers_bounds 9) as (_ & H9 & _).
  destruct (workers_bounds 1) as (_ & _ & H1 & H1').
  split; [lia |]. split; [lia |].
  split; [exact (proj1 (H9 ltac:(lia))) |].
  split; [exact (H1 ltac:(lia)) |].
  apply H1'. lia.
Defined.

(** X2. Whatever the environment, [main.py] builds exactly one span
    exporter and registers exactly one span processor, which wraps it. The
    exporter is the console one exactly when
    [OTEL_EXPORTER_OTLP_ENDPOINT] is unset or empty; otherwise it is the
    OTLP exporter whose endpoint is the value of the variable, taken as it
    is, followed by ["/v1/traces"]. *)
Theorem one_span_exporter (environ : gmap string string) :
  let configured := environ !! "OTEL_EXPORTER_OTLP_ENDPOINT" in
  length (span_exporters environ) = 1%nat
  /\ span_processors environ = map BatchSpanProcessor (span_exporters environ)
  /\ (span_exporters environ = [ConsoleSpanExporter]
      <-> configured = None \/ configured = Some "")
  /\ (forall url, configured = Some url -> url <> "" ->
        span_exporters environ = [OTLPSpanExporter (url +:+ "/v1/traces")]).
Proof.
  cbv zeta. unfold span_processors, span_exporters,
    OTEL_EXPORTER_OTLP_ENDPOINT, getenv.
  destruct (environ !! "OTEL_EXPORTER_OTLP_ENDPOINT") as [url |] eqn:E; cbn.
  - destruct (String.eqb url "") eqn:Eu; cbn.
    + apply String.eqb_eq in Eu. subst url.
      repeat split; auto. intros url [= <-] Hne. congruence.
    + apply String.eqb_neq in Eu.
      repeat split; try discriminate.
      * intros [H | H]; congruence.
      * intros url' [= <-] _. reflexivity.
  - repeat split; auto. discriminate.
Qed.

Lemma one_span_exporter_witness :
  span_exporters {[ "OTEL_EXPORTER_OTLP_ENDPOINT" := "http://otel-collector:4318/" ]}
    = [OTLPSpanExporter "http://otel-collector:4318//v1/traces"]
  /\ span_exporters {[ "OTEL_EXPORTER_OTLP_ENDPOINT" := "" ]}
     = [ConsoleSpanExporter].
Proof.
  split.
  - destruct (one_span_exporter
        {[ "OTEL_EXPORTER_OTLP_ENDPOINT" := "http://otel-collector:4318/" ]})
      as (_ & _ & _ & H).
    apply (H "http://otel-collector:4318/"); [reflexivity | discriminate].
  - destruct (one_span_exporter {[ "OTEL_EXPORTER_OTLP_ENDPOINT" := "" ]})
      as (_ & _ & H & _).
    apply H. right. reflexivity.
Defined.

(* ===================================================================== *)
(** * Proofs: the memory loop of [work] *)
(* ===================================================================== *)

Import Work.

Section Range.

Variables stop step : Z.
Hypothesis step_pos : 0 < step.

Lemma range_from_bounds (fuel : nat) :
  forall start j, j ∈ range_from fuel start stop step -> start <= j < stop.
Proof.
  induction fuel as [| fuel IH]; intros start j; cbn [range_from].
  - intros Hin. now apply elem_of_nil in Hin.
  - destruct (start <? stop) eqn:E.
    + apply Z.ltb_lt in E. intros [-> | Hin]%elem_of_cons; [lia |].
      apply IH in Hin. lia.
    + intros Hin. now apply elem_of_nil in Hin.
Qed.

Lemma elem_of_range_from (fuel : nat) :
  forall start j, stop - start <= Z.of_nat fuel ->
    j ∈ range_from fuel start stop step
    <-> start <= j < stop /\ (j - start) mod step = 0.
Proof.
  induction fuel as [| fuel IH]; intros start j Hfuel; cbn [range_from].
  - split; [intros Hin; now apply elem_of_nil in Hin | lia].
  - destruct (start <? stop) eqn:E.
    + apply Z.ltb_lt in E. rewrite elem_of_cons, IH by lia.
      replace (j - (start + step)) with (j - start + (-1) * step) by lia.
      rewrite Z.mod_add by lia. split.
      * intros [-> | [Hj Hmod]].
        -- rewrite Z.sub_diag, Z.mod_0_l by lia. lia.
        -- split; [lia | exact Hmod].
      * intros [Hj Hmod]. destruct (Z.eq_dec j start) as [-> | Hne]; [now left |].
        right. split; [| exact Hmod].
        pose proof (Z.div_mod (j - start) step ltac:(lia)) as Hdm.
        rewrite Hmod in Hdm.
        assert (0 < (j - start) / step) by nia. nia.
    + apply Z.ltb_ge in E.
      split; [intros Hin; now apply elem_of_nil in Hin | lia].
Qed.

Lemma NoDup_range_from (fuel : nat) :
  forall start, NoDup (range_from fuel start stop step).
Proof.
  induction fuel as [| fuel IH]; intros start; cbn [range_from].
  - constructor.
  - destruct (start <? stop); [| constructor].
    constructor; [| apply IH].
    intros Hin%range_from_bounds. lia.
Qed.

Lemma length_range_from (fuel : nat) :
  forall start, stop - start <= Z.of_nat fuel ->
    Z.of_nat (length (range_from fuel start stop step))
    = Z.max 0 ((stop - start + step - 1) / step).
Proof.
  induction fuel as [| fuel IH]; intros start Hfuel; cbn [range_from].
  - cbn [length]. assert ((stop - start + step - 1) / step < 1).
    { apply Z.div_lt_upper_bound; lia. }
    lia.
  - destruct (start <? stop) eqn:E.
    + apply Z.ltb_lt in E. cbn [length]. rewrite Nat2Z.inj_succ, IH by lia.
      replace (stop - (start + step) + step - 1) with (stop - start - 1) by lia.
      replace (stop - start + step - 1) with (stop - start - 1 + 1 * step)
        by lia.
      rewrite Z.div_add by lia.
      assert (0 <= (stop - start - 1) / step) by (apply Z.div_pos; lia).
      lia.
    + apply Z.ltb_ge in E. cbn [length].
      assert ((stop - start + step - 1) / step < 1).
      { apply Z.div_lt_upper_bound; lia. }
      lia.
Qed.

End Range.

Lemma stride_pos (buf : list Z) : 0 < stride buf.
Proof. unfold stride. lia. Qed.

(** The loop body over distinct indices inside the buffer: no access
    fails, the length is kept, the bytes at the indices go up by one
    modulo 255 and the others stay. *)
Lemma touch_at_spec (indices : list Z) :
  forall buf,
    NoDup indices ->
    Forall (fun i => 0 <= i < Z.of_nat (length buf)) indices ->
    exists buf',
      touch_at buf indices = Return buf'
      /\ length buf' = length buf
      /\ forall j : nat,
          buf' !! j =
            if decide (Z.of_nat j ∈ indices)
            then (fun v => (v + 1) mod 255) <$> buf !! j
            else buf !! j.
Proof.
  induction indices as [| i rest IH]; intros buf Hnd Hin.
  - exists buf. split; [reflexivity |]. split; [reflexivity |].
    intros j. case_decide as Hj; [now apply elem_of_nil in Hj | reflexivity].
  - apply NoDup_cons in Hnd as [Hi Hnd]. apply Forall_cons in Hin as [Hib Hin].
    cbn [touch_at]. unfold getitem.
    destruct (lookup_lt_is_Some_2 buf (Z.to_nat i) ltac:(lia)) as [v Hv].
    rewrite Hv. unfold setitem.
    pose proof (Z.mod_pos_bound (v + 1) 255 ltac:(lia)) as Hmod.
    replace ((0 <=? (v + 1) mod 255) && ((v + 1) mod 255 <? 256)) with true
      by (symmetry; apply andb_true_iff; split;
          [apply Z.leb_le | apply Z.ltb_lt]; lia).
    replace (i <? Z.of_nat (length buf)) with true
      by (symmetry; apply Z.ltb_lt; lia).
    destruct (IH (<[Z.to_nat i := (v + 1) mod 255]> buf) Hnd) as
      (buf' & Hrun & Hlen & Hget).
    { rewrite length_insert. exact Hin. }
    exists buf'. split; [exact Hrun |].
    split; [now rewrite Hlen, length_insert |].
    intros j. rewrite Hget.
    destruct (decide (j = Z.to_nat i)) as [-> | Hne].
    + rewrite Z2Nat.id by lia.
      rewrite decide_False by exact Hi.
      rewrite decide_True by (apply elem_of_cons; now left).
      rewrite list_lookup_insert_eq by lia. now rewrite Hv.
    + rewrite list_lookup_insert_ne by congruence.
      destruct (decide (Z.of_nat j ∈ rest)) as [Hr | Hr].
      * rewrite decide_True by (apply elem_of_cons; now right). reflexivity.
      * rewrite decide_False; [reflexivity |].
        intros [Heq | Hr']%elem_of_cons; [lia | contradiction].
Qed.

(** X3. The memory loop of [work] never fails, whatever the buffer: no
    index is out of range and no value written is outside a byte. It keeps
    the length of the buffer, replaces the byte at every index that is a
    multiple of the stride [max(1, len(buf)//10)] by its value plus one
    modulo 255 (so 254 becomes 0 and no touched byte is 255 afterwards)
    and leaves every other byte as it was. *)
Theorem touch_spec (buf : list Z) :
  exists buf',
    touch buf = Return buf'
    /\ length buf' = length buf
    /\ (forall (j : nat) v, buf !! j = Some v ->
          buf' !! j =
            Some (if Z.of_nat j mod stride buf =? 0 then (v + 1) mod 255
                  else v))
    /\ (forall (j : nat) v', buf' !! j = Some v' ->
          Z.of_nat j mod stride buf = 0 -> 0 <= v' <= 254).
Proof.
  pose proof (stride_pos buf) as Hs.
  destruct (touch_at_spec (range 0 (Z.of_nat (length buf)) (stride buf)) buf)
    as (buf' & Hrun & Hlen & Hget).
  { apply NoDup_range_from. exact Hs. }
  { apply Forall_forall. intros i Hi.
    apply range_from_bounds in Hi; [exact Hi | exact Hs]. }
  assert (Hin : forall j : nat, (j < length buf)%nat ->
            Z.of_nat j ∈ range 0 (Z.of_nat (length buf)) (stride buf)
            <-> Z.of_nat j mod stride buf = 0).
  { intros j Hj. unfold range. rewrite elem_of_range_from by lia.
    rewrite Z.sub_0_r. split; [tauto | lia]. }
  exists buf'. split; [exact Hrun |]. split; [exact Hlen |]. split.
  - intros j v Hv. rewrite Hget, Hv. cbn.
    pose proof (lookup_lt_Some _ _ _ Hv) as Hj.
    destruct (Z.of_nat j mod stride buf =? 0) eqn:E.
    + apply Z.eqb_eq in E. rewrite decide_True by (now apply Hin). reflexivity.
    + apply Z.eqb_neq in E. rewrite decide_False by (now rewrite Hin).
      reflexivity.
  - intros j v' Hv' Hmod.
    pose proof (lookup_lt_Some _ _ _ Hv') as Hj. rewrite Hlen in Hj.
    rewrite Hget, decide_True in Hv' by (now apply Hin).
    destruct (buf !! j) as [v |]; [| discriminate].
    cbn in Hv'. injection Hv' as <-.
    pose proof (Z.mod_pos_bound (v + 1) 255 ltac:(lia)). lia.
Qed.

Lemma touch_spec_witness :
  touch [254; 7; 255; 0; 9] = Return [0; 8; 1; 1; 10]
  /\ touch (zeroed 25) =
       Return [1; 0; 1; 0; 1; 0; 1; 0; 1; 0; 1; 0; 1; 0; 1; 0; 1; 0; 1; 0;
               1; 0; 1; 0; 1].
Proof.
  split.
  - destruct (touch_spec [254; 7; 255; 0; 9]) as (buf' & Hrun & _).
    rewrite Hrun. vm_compute in Hrun. now injection Hrun as <-.
  - destruct (touch_spec (zeroed 25)) as (buf' & Hrun & _).
    rewrite Hrun. vm_compute in Hrun. now injection Hrun as <-.
Defined.

(** The number of indices the loop visits in a buffer of
    [mem_mb * 1024 * 1024] bytes. *)
Lemma range_count (mem_mb : Z) (buf : list Z) :
  0 < mem_mb ->
  Z.of_nat (length buf) = mem_mb * 1024 * 1024 ->
  length (range 0 (Z.of_nat (length buf)) (stride buf))
    = if mem_mb mod 5 =? 0 then 10%nat else 11%nat.
Proof.
  intros Hpos Hlen.
  pose proof (stride_pos buf) as Hs.
  apply Nat2Z.inj. unfold range.
  rewrite length_range_from by lia.
  unfold stride in *. rewrite Hlen in *.
  set (n := mem_mb * 1024 * 1024) in *.
  assert (Hq : 1 <= n / 10) by (apply Z.div_le_lower_bound; lia).
  rewrite !(Z.max_r 1 (n / 10)) in * by lia.
  pose proof (Z.div_mod n 10 ltac:(lia)) as Hdm.
  pose proof (Z.mod_pos_bound n 10 ltac:(lia)) as Hr.
  assert (Hbig : 10 <= n / 10) by (apply Z.div_le_lower_bound; lia).
  assert (H5 : n mod 10 = 0 <-> mem_mb mod 5 = 0).
  { pose proof (Z.div_mod mem_mb 5 ltac:(lia)) as Hdm5.
    pose proof (Z.mod_pos_bound mem_mb 5 ltac:(lia)) as Hr5.
    assert (Hcase : mem_mb mod 5 = 0 \/ mem_mb mod 5 = 1 \/ mem_mb mod 5 = 2
                    \/ mem_mb mod 5 = 3 \/ mem_mb mod 5 = 4) by lia.
    subst n. destruct Hcase as [Hc | [Hc | [Hc | [Hc | Hc]]]];
      rewrite Hc in *; lia. }
  destruct (mem_mb mod 5 =? 0) eqn:E.
  - apply Z.eqb_eq, H5 in E.
    replace (n - 0 + n / 10 - 1) with (n / 10 - 1 + 10 * (n / 10)) by lia.
    rewrite Z.div_add by lia.
    rewrite Z.div_small by lia. lia.
  - apply Z.eqb_neq in E. rewrite <- H5 in E.
    replace (n - 0 + n / 10 - 1)
      with (n mod 10 - 1 + 11 * (n / 10)) by lia.
    rewrite Z.div_add by lia.
    rewrite Z.div_small by lia. lia.
Qed.

(** X4. For [mem_mb > 0] the allocation of [work] ends in one of three
    ways. It raises [OverflowError] exactly when [mem_mb * 1024 * 1024]
    is above [sys.maxsize]; it raises [MemoryError] when the size fits
    and the allocator cannot provide it; otherwise it gives a buffer of
    [mem_mb * 1024 * 1024] zero bytes, and of these the memory loop
    touches distinct ones, 10 when [mem_mb] is a multiple of 5 and 11
    otherwise. It never leaves the handler without a buffer. *)
Theorem touched_bytes (maxsize available mem_mb : Z) :
  0 < mem_mb ->
  let size := mem_mb * 1024 * 1024 in
  match allocate maxsize available mem_mb with
  | Return (Some buf) =>
      size <= maxsize /\ size <= available
      /\ Z.of_nat (length buf) = size
      /\ Forall (fun b => b = 0) buf
      /\ let indices := range 0 (Z.of_nat (length buf)) (stride buf) in
         NoDup indices
         /\ length indices = if mem_mb mod 5 =? 0 then 10%nat else 11%nat
  | Return None => False
  | Raise e =>
      (e = OverflowError /\ maxsize < size)
      \/ (e = MemoryError /\ size <= maxsize /\ available < size)
  end.
Proof.
  intros Hpos size. unfold allocate, bytearray. fold size.
  replace (0 <? mem_mb) with true by (symmetry; apply Z.ltb_lt; lia).
  replace (size <? 0) with false by (symmetry; apply Z.ltb_ge; subst size; lia).
  destruct (maxsize <? size) eqn:Emax.
  { apply Z.ltb_lt in Emax. left. split; [reflexivity | exact Emax]. }
  apply Z.ltb_ge in Emax.
  destruct (available <? size) eqn:Eav.
  { apply Z.ltb_lt in Eav. right. repeat split; [exact Emax | exact Eav]. }
  apply Z.ltb_ge in Eav.
  assert (Hlen : Z.of_nat (length (zeroed size)) = size).
  { unfold zeroed. rewrite length_replicate. subst size. lia. }
  split; [exact Emax |]. split; [exact Eav |]. split; [exact Hlen |].
  split; [apply Forall_replicate; reflexivity |].
  cbv zeta. split.
  - apply NoDup_range_from. apply stride_pos.
  - apply range_count; [exact Hpos | exact Hlen].
Qed.

Lemma touched_bytes_witness :
  0 < 5 /\ 0 < 64 /\ 0 < 8796093022208
  /\ (exists buf, allocate 9223372036854775807 17179869184 5 = Return (Some buf)
        /\ length (range 0 (Z.of_nat (length buf)) (stride buf)) = 10%nat)
  /\ (exists buf, allocate 9223372036854775807 17179869184 64 = Return (Some buf)
        /\ length (range 0 (Z.of_nat (length buf)) (stride buf)) = 11%nat)
  /\ allocate 9223372036854775807 17179869184 8796093022208
     = Raise OverflowError
  /\ allocate 9223372036854775807 17179869184 32768 = Raise MemoryError.
Proof.
  split; [lia |]. split; [lia |]. split; [lia |]. split; [| split; [| split]].
  - pose proof (touched_bytes 9223372036854775807 17179869184 5
                  ltac:(lia)) as H.
    cbv zeta in H.
    destruct (allocate 9223372036854775807 17179869184 5)
      as [[buf |] | e]; [| contradiction | lia].
    exists buf. split; [reflexivity | exact (proj2 (proj2 (proj2 (proj2 (proj2 H)))))].
  - pose proof (touched_bytes 9223372036854775807 17179869184 64
                  ltac:(lia)) as H.
    cbv zeta in H.
    destruct (allocate 9223372036854775807 17179869184 64)
      as [[buf |] | e]; [| contradiction | lia].
    exists buf. split; [reflexivity | exact (proj2 (proj2 (proj2 (proj2 (proj2 H)))))].
  - pose proof (touched_bytes 9223372036854775807 17179869184 8796093022208
                  ltac:(lia)) as H.
    cbv zeta in H.
    destruct (allocate 9223372036854775807 17179869184 8796093022208)
      as [[buf |] | e]; [lia | contradiction |].
    destruct H as [[-> _] | [_ [H _]]]; [reflexivity | lia].
  - pose proof (touched_bytes 9223372036854775807 17179869184 32768
                  ltac:(lia)) as H.
    cbv zeta in H.
    destruct (allocate 9223372036854775807 17179869184 32768)
      as [[buf |] | e]; [lia | contradiction |].
    destruct H as [[_ H] | [-> _]]; [lia | reflexivity].
Defined.

(* ===================================================================== *)
(** * Proofs: the handler [downstream] *)
(* ===================================================================== *)

Import Downstream.

(** X5. How [downstream] ends, over any tracer, HTTP client and logger,
    once the span is entered:
    - when [requests.get] returns, the handler returns a JSON response
      that carries the status code of the reply, whatever that code is,
      and writes no log record;
    - when [requests.get] raises a [RequestException], the handler writes
      one [downstream_error] record carrying the text of the exception,
      before the span is left, and raises [HTTPException(502)] with the
      fixed detail: the text of the exception goes to the log only;
    - any other exception of [requests.get] passes through unchanged, with
      no record written.
    On each of the three paths the span is left exactly once. *)
Theorem downstream_outcomes {W : Type} (I : Outbound W) (w w1 : W) :
  span_enter "call_httpbin" w = (Return tt, w1) ->
  match requests_get "https://httpbin.org/delay/0.2" 3 w1 with
  | (Return code, w2) =>
      forall w3, span_exit w2 = (Return tt, w3) ->
        downstream w =
          (Return {| status_code := Some 200;
                     content := Json [("status_code", str code)] |}, w3)
  | (Raise e, w2) =>
      if is_RequestException e then
        forall w3 w4,
          log_error "downstream_error" [("error", VStr (exc_msg e))] w2
            = (Return tt, w3) ->
          span_exit w3 = (Return tt, w4) ->
          downstream w
            = (Raise (HTTPException 502 "downstream call failed"), w4)
      else
        forall w3, span_exit w2 = (Return tt, w3) ->
          downstream w = (Raise e, w3)
  end.
Proof.
  intros Henter.
  cbv beta delta [downstream with_span try_finally try_except bind ret raise].
  rewrite Henter.
  destruct (requests_get "https://httpbin.org/delay/0.2" 3 w1)
    as [[code | e] w2].
  - intros w3 Hexit. now rewrite Hexit.
  - destruct (is_RequestException e).
    + intros w3 w4 Hlog Hexit. now rewrite Hlog, Hexit.
    + intros w3 Hexit. now rewrite Hexit.
Qed.

Lemma downstream_outcomes_witness :
  let idle := {| remote := Raise ConnectTimeout;
                 current_spans := ["GET /downstream"];
                 ended_spans := [];
                 log_records := [] |} in
  span_enter (Outbound := net is_ConnectTimeout) "call_httpbin" idle
    = (Return tt,
       {| remote := remote idle;
          current_spans := ["call_httpbin"; "GET /downstream"];
          ended_spans := []; log_records := [] |})
  /\ downstream (H := net is_ConnectTimeout) idle
     = (Raise (HTTPException 502 "downstream call failed"),
        {| remote := remote idle;
           current_spans := ["GET /downstream"];
           ended_spans := ["call_httpbin"];
           log_records :=
             [(["call_httpbin"; "GET /downstream"], "downstream_error",
               [("error", VStr "timed out")])] |}).
Proof.
  intros idle. split; [reflexivity |].
  pose proof (downstream_outcomes (net is_ConnectTimeout) idle _ eq_refl)
    as H.
  cbn in H. exact (H _ _ eq_refl eq_refl).
Defined.

(* ===================================================================== *)
(** * Proofs: accounting over the event loop *)
(* ===================================================================== *)

Import Ledger.

Lemma measured_inflight_bounds (ts : list task) :
  0 <= measured_inflight ts <= Z.of_nat (length ts).
Proof.
  induction ts as [| [r st | r] ts IH]; cbn; [lia | ..];
    fold (measured_inflight ts); lia.
Qed.

(** X6. At every moment of a process run from its start, the in-progress
    gauge is exactly the number of measured requests suspended in their
    handler; requests to ["/metrics"] in flight do not count. So the gauge
    is never negative and never above the number of requests in flight. *)
Theorem gauge_counts_inflight (t : float) (evs : list event) (s : Sys) :
  run (boot t) evs = Some s ->
  INPROGRESS (world s) = measured_inflight (inflight s)
  /\ 0 <= INPROGRESS (world s) <= Z.of_nat (length (inflight s)).
Proof.
  intros Hrun.
  assert (Heq : INPROGRESS (world s) - measured_inflight (inflight s) = 0).
  { apply (run_invariant
      (fun s => INPROGRESS (world s) - measured_inflight (inflight s) = 0)
      ltac:(intros s1 ev s2 HP Hst; cbv beta in *;
            now rewrite (step_gauge _ _ _ Hst))
      evs (boot t) s); [reflexivity | exact Hrun]. }
  pose proof (measured_inflight_bounds (inflight s)). lia.
Qed.

Lemma gauge_counts_inflight_witness :
  exists s,
    run (boot 0%float)
        [Arrive GET_work; Arrive GET_metrics; Arrive GET_healthz;
         Resolve 0 (Raise RuntimeError)] = Some s
    /\ length (inflight s) = 2%nat
    /\ INPROGRESS (world s) = 1.
Proof.
  assert (Hrun : exists s,
    run (boot 0%float)
        [Arrive GET_work; Arrive GET_metrics; Arrive GET_healthz;
         Resolve 0 (Raise RuntimeError)] = Some s
    /\ length (inflight s) = 2%nat /\ measured_inflight (inflight s) = 1).
  { vm_compute. eexists. repeat split; reflexivity. }
  destruct Hrun as (s & Hrun & Hlen & Hm).
  exists s. split; [exact Hrun |]. split; [exact Hlen |].
  rewrite <- Hm. exact (proj1 (gauge_counts_inflight _ _ _ Hrun)).
Defined.

Lemma ended_with_snoc (m p : string) (log : list (Request * outcome Response))
    (r : Request) (o : outcome Response) :
  ended_with m p (log ++ [(r, o)]) =
    ended_with m p log ++
      (if decide (path r <> "/metrics" /\ (method r, path r) = (m, p))
       then [(r, o)] else []).
Proof.
  unfold ended_with. rewrite filter_app. reflexivity.
Qed.

Lemma filter_returned_snoc (log : list (Request * outcome Response))
    (r : Request) (o : outcome Response) :
  length (filter returned (log ++ [(r, o)])) =
    (length (filter returned log)
     + match o with Return _ => 1 | Raise _ => 0 end)%nat.
Proof.
  rewrite filter_app, length_app. f_equal.
  rewrite filter_cons, filter_nil. destruct o; reflexivity.
Qed.

(** What one event does to the two accounts of a label pair. *)
Lemma step_ledger (s s' : Sys) (ev : event) (m p : string) :
  Forall task_ok (inflight s) ->
  step s ev = Some s' ->
  Z.of_nat (length (observations (REQUEST_LATENCY (world s')) (m, p)))
    - Z.of_nat (length (ended_with m p (settled s')))
  = Z.of_nat (length (observations (REQUEST_LATENCY (world s)) (m, p)))
    - Z.of_nat (length (ended_with m p (settled s)))
  /\ counter_total (REQUEST_COUNT (world s')) m p
       - Z.of_nat (length (filter returned (ended_with m p (settled s'))))
     = counter_total (REQUEST_COUNT (world s)) m p
       - Z.of_nat (length (filter returned (ended_with m p (settled s)))).
Proof.
  intros Hok Hstep.
  destruct (step_cases _ _ _ Hstep)
    as [(r & -> & Hr & ->) | [(r & -> & Hr & ->) | [(t & -> & ->)
       | [(i & o & r & -> & Hi & ->) | (i & o & r & start & -> & Hi & ->)]]]];
    cbn [world settled]; try (split; reflexivity).
  - assert (Hr : path r = "/metrics").
    { apply (Forall_lookup_1 _ _ _ _ Hok Hi). }
    rewrite ended_with_snoc, decide_False by tauto.
    rewrite app_nil_r. split; reflexivity.
  - assert (Hr : path r <> "/metrics").
    { apply (Forall_lookup_1 _ _ _ _ Hok Hi). }
    rewrite ended_with_snoc. cbn [released REQUEST_LATENCY REQUEST_COUNT
      set_INPROGRESS set_REQUEST_LATENCY].
    rewrite REQUEST_LATENCY_counted, observations_insert.
    destruct (decide ((method r, path r) = (m, p))) as [Heq | Hne].
    + rewrite decide_True by tauto. rewrite Heq.
      rewrite filter_returned_snoc, !length_app. cbn [length].
      split; [lia |].
      destruct o as [response | e]; cbn [counted REQUEST_COUNT
        set_REQUEST_COUNT].
      * rewrite counter_total_insert. unfold count_labels. cbn [fst].
        rewrite decide_True by exact Heq. lia.
      * lia.
    + rewrite decide_False by tauto. rewrite app_nil_r.
      split; [reflexivity |].
      destruct o as [response | e]; cbn [counted REQUEST_COUNT
        set_REQUEST_COUNT]; [| reflexivity].
      rewrite counter_total_insert. unfold count_labels. cbn [fst].
      rewrite decide_False by exact Hne. lia.
Qed.

(** The two accounts of a label pair in a process run from its start. *)
Lemma ledger_balanced (t : float) (evs : list event) (s : Sys)
    (m p : string) :
  run (boot t) evs = Some s ->
  Z.of_nat (length (observations (REQUEST_LATENCY (world s)) (m, p)))
    = Z.of_nat (length (ended_with m p (settled s)))
  /\ counter_total (REQUEST_COUNT (world s)) m p
     = Z.of_nat (length (filter returned (ended_with m p (settled s)))).
Proof.
  intros Hrun.
  pose proof (run_invariant
    (fun s => Forall task_ok (inflight s)
       /\ Z.of_nat (length (observations (REQUEST_LATENCY (world s)) (m, p)))
          - Z.of_nat (length (ended_with m p (settled s))) = 0
       /\ counter_total (REQUEST_COUNT (world s)) m p
          - Z.of_nat (length (filter returned (ended_with m p (settled s))))
          = 0)) as Hinv.
  cbv beta in Hinv.
  destruct (Hinv
    ltac:(intros s1 ev s2 (Hok & H1 & H2) Hst;
          destruct (step_ledger s1 s2 ev m p Hok Hst) as [E1 E2];
          split; [eapply step_task_ok; eauto | split; lia])
    evs (boot t) s) as (_ & H1 & H2); [| exact Hrun | lia].
  split; [constructor |]. cbn. unfold counter_total.
  rewrite map_fold_empty. split; reflexivity.
Qed.

(** X7. In a process run from its start through any schedule, the number
    of observations of [http_request_duration_seconds] on a
    [(method, path)] series is exactly the number of measured requests
    with that method and path that have ended, by a response or by a
    fault: every ended request is observed once, none twice, and requests
    still in flight not yet. *)
Theorem observed_once_per_ended_request (t : float) (evs : list event)
    (s : Sys) :
  run (boot t) evs = Some s ->
  forall m p,
    length (observations (REQUEST_LATENCY (world s)) (m, p))
      = length (ended_with m p (settled s)).
Proof.
  intros Hrun m p.
  destruct (ledger_balanced t evs s m p Hrun) as [H _]. lia.
Qed.

Lemma observed_once_per_ended_request_witness :
  exists s, run (boot 0%float) sample_schedule = Some s
    /\ length (ended_with "GET" "/work" (settled s)) = 1%nat.
Proof.
  destruct sample_schedule_runs as (s & Hrun & _ & _ & Hobs & _).
  exists s. split; [exact Hrun |].
  rewrite <- (observed_once_per_ended_request _ _ _ Hrun "GET" "/work").
  exact Hobs.
Defined.

(** X8. In a process run from its start through any schedule, the total
    of [http_requests_total] for a [(method, path)] pair, over all status
    codes, is exactly the number of ended measured requests of that pair
    whose handler returned a response; so the observation count of the
    latency histogram minus that total is the number of requests of the
    pair that ended in a fault. *)
Theorem counted_once_per_returned_request (t : float) (evs : list event)
    (s : Sys) :
  run (boot t) evs = Some s ->
  forall m p,
    counter_total (REQUEST_COUNT (world s)) m p
      = Z.of_nat (length (filter returned (ended_with m p (settled s))))
    /\ Z.of_nat (length (observations (REQUEST_LATENCY (world s)) (m, p)))
         - counter_total (REQUEST_COUNT (world s)) m p
       = Z.of_nat (length (filter (fun ro => ~ returned ro)
                                  (ended_with m p (settled s)))).
Proof.
  intros Hrun m p.
  destruct (ledger_balanced t evs s m p Hrun) as [H1 H2].
  split; [exact H2 |]. rewrite H1, H2.
  generalize (ended_with m p (settled s)). intros l.
  induction l as [| ro l IH]; [reflexivity |].
  rewrite !filter_cons.
  destruct (decide (returned ro)) as [Hr | Hr].
  - rewrite decide_False by tauto. cbn [length]. lia.
  - rewrite decide_True by tauto. cbn [length]. lia.
Qed.

Lemma counted_once_per_returned_request_witness :
  exists s, run (boot 0%float) sample_schedule = Some s
    /\ counter_total (REQUEST_COUNT (world s)) "GET" "/work" = 0
    /\ counter_total (REQUEST_COUNT (world s)) "GET" "/healthz" = 1.
Proof.
  assert (Hs : exists s, run (boot 0%float) sample_schedule = Some s
    /\ length (filter returned (ended_with "GET" "/work" (settled s))) = 0%nat
    /\ length (filter returned (ended_with "GET" "/healthz" (settled s)))
       = 1%nat).
  { vm_compute. eexists. repeat split; reflexivity. }
  destruct Hs as (s & Hrun & Hw & Hh).
  exists s. split; [exact Hrun |].
  pose proof (counted_once_per_returned_request _ _ _ Hrun) as H.
  split.
  - rewrite (proj1 (H "GET" "/work")), Hw. reflexivity.
  - rewrite (proj1 (H "GET" "/healthz")), Hh. reflexivity.
Defined.

Lemma step_grows (s s' : Sys) (ev : event) :
  step s ev = Some s' ->
  (forall labels,
      counter_value (REQUEST_COUNT (world s)) labels
        <= counter_value (REQUEST_COUNT (world s')) labels)
  /\ (forall labels,
      observations (REQUEST_LATENCY (world s)) labels
        `prefix_of` observations (REQUEST_LATENCY (world s')) labels).
Proof.
  intros Hstep.
  destruct (step_cases _ _ _ Hstep)
    as [(r & -> & Hr & ->) | [(r & -> & Hr & ->) | [(t & -> & ->)
       | [(i & o & r & -> & Hi & ->) | (i & o & r & start & -> & Hi & ->)]]]];
    cbn [world]; try (split; intros; reflexivity).
  split; intros labels.
  - cbn [released REQUEST_COUNT set_INPROGRESS set_REQUEST_LATENCY].
    destruct o as [response | e]; cbn [counted REQUEST_COUNT
      set_REQUEST_COUNT]; [| reflexivity].
    rewrite counter_value_insert.
    destruct (decide (count_labels r response = labels)) as [<- |]; lia.
  - cbn [released REQUEST_LATENCY set_INPROGRESS set_REQUEST_LATENCY].
    rewrite REQUEST_LATENCY_counted, observations_insert.
    destruct (decide ((method r, path r) = labels)) as [<- |];
      [apply prefix_app_r |]; reflexivity.
Qed.

(** X9. The interceptor only ever adds to its metrics. From any state of
    the process and through any schedule, no series of
    [http_requests_total] goes down, and the observations a series of
    [http_request_duration_seconds] had are still there, in the same
    order, before those added since. *)
Theorem metrics_only_grow (s s' : Sys) (evs : list event) :
  run s evs = Some s' ->
  (forall labels,
      counter_value (REQUEST_COUNT (world s)) labels
        <= counter_value (REQUEST_COUNT (world s')) labels)
  /\ (forall labels,
      observations (REQUEST_LATENCY (world s)) labels
        `prefix_of` observations (REQUEST_LATENCY (world s')) labels).
Proof.
  apply (run_invariant (fun s' =>
    (forall labels,
        counter_value (REQUEST_COUNT (world s)) labels
          <= counter_value (REQUEST_COUNT (world s')) labels)
    /\ (forall labels,
        observations (REQUEST_LATENCY (world s)) labels
          `prefix_of` observations (REQUEST_LATENCY (world s')) labels))).
  - intros s1 ev s2 [Hc Hl] Hst.
    destruct (step_grows _ _ _ Hst) as [Hc' Hl'].
    split; intros labels.
    + specialize (Hc labels). specialize (Hc' labels). lia.
    + etrans; [apply Hl | apply Hl'].
  - split; intros; reflexivity.
Qed.

Lemma metrics_only_grow_witness :
  let s0 := {| world := sample_world; inflight := []; settled := [] |} in
  exists s, run s0 sample_schedule = Some s
    /\ 3 <= counter_value (REQUEST_COUNT (world s)) ("GET", "/work", "200")
    /\ [0.5%float; 0.25%float; 1%float]
         `prefix_of` observations (REQUEST_LATENCY (world s)) ("GET", "/work").
Proof.
  intros s0.
  assert (Hrun : exists s, run s0 sample_schedule = Some s).
  { vm_compute. eexists. reflexivity. }
  destruct Hrun as (s & Hrun). exists s. split; [exact Hrun |].
  destruct (metrics_only_grow _ _ _ Hrun) as [Hc Hl]. split.
  - exact (Hc ("GET", "/work", "200")).
  - exact (Hl ("GET", "/work")).
Defined.

Lemma latency_series_snoc (log : list (Request * outcome Response))
    (r : Request) (o : outcome Response) :
  latency_series (log ++ [(r, o)]) =
    latency_series log ∪
      (if String.eqb (path r) "/metrics" then ∅
       else {[ (method r, path r) ]}).
Proof.
  unfold latency_series. rewrite omap_app, list_to_set_app_L. f_equal.
  cbn. destruct (String.eqb (path r) "/metrics"); cbn;
    [reflexivity | apply union_empty_r_L].
Qed.

Lemma step_series (s s' : Sys) (ev : event) :
  Forall task_ok (inflight s) ->
  step s ev = Some s' ->
  dom (REQUEST_LATENCY (world s)) = latency_series (settled s) ->
  dom (REQUEST_LATENCY (world s')) = latency_series (settled s').
Proof.
  intros Hok Hstep Hdom.
  destruct (step_cases _ _ _ Hstep)
    as [(r & -> & Hr & ->) | [(r & -> & Hr & ->) | [(t & -> & ->)
       | [(i & o & r & -> & Hi & ->) | (i & o & r & start & -> & Hi & ->)]]]];
    cbn [world settled]; try exact Hdom.
  - assert (Hr : path r = "/metrics").
    { apply (Forall_lookup_1 _ _ _ _ Hok Hi). }
    rewrite latency_series_snoc, Hr. cbn. rewrite Hdom.
    symmetry. apply union_empty_r_L.
  - assert (Hr : path r <> "/metrics").
    { apply (Forall_lookup_1 _ _ _ _ Hok Hi). }
    rewrite latency_series_snoc, (eqb_metrics_false _ Hr).
    cbn [released REQUEST_LATENCY set_INPROGRESS set_REQUEST_LATENCY].
    rewrite REQUEST_LATENCY_counted, dom_insert_L, Hdom.
    apply union_comm_L.
Qed.

(** X10. In a process run from its start through any schedule, the series
    of [http_request_duration_seconds] are exactly the [(method, path)]
    pairs of the measured requests that have ended: a series exists for
    each distinct method and raw URL path requested, and for nothing
    else. *)
Theorem one_series_per_label_pair (t : float) (evs : list event) (s : Sys) :
  run (boot t) evs = Some s ->
  dom (REQUEST_LATENCY (world s)) = latency_series (settled s).
Proof.
  intros Hrun.
  refine (proj2 (run_invariant
    (fun s => Forall task_ok (inflight s)
              /\ dom (REQUEST_LATENCY (world s)) = latency_series (settled s))
    (fun s1 ev s2 HP Hst =>
       conj (step_task_ok s1 s2 ev (proj1 HP) Hst)
            (step_series s1 s2 ev (proj1 HP) Hst (proj2 HP)))
    evs (boot t) s _ Hrun)).
  split; [constructor |]. cbn. unfold latency_series. cbn.
  apply dom_empty_L.
Qed.

Lemma one_series_per_label_pair_witness :
  exists s,
    run (boot 0%float)
      [ Arrive {| method := "GET"; path := "/users/1" |};
        Arrive {| method := "GET"; path := "/users/2" |};
        Resolve 0 (Raise RuntimeError);
        Resolve 0 (Raise RuntimeError) ] = Some s
    /\ dom (REQUEST_LATENCY (world s))
       = {[ ("GET", "/users/1"); ("GET", "/users/2") ]}.
Proof.
  assert (Hs : exists s,
    run (boot 0%float)
      [ Arrive {| method := "GET"; path := "/users/1" |};
        Arrive {| method := "GET"; path := "/users/2" |};
        Resolve 0 (Raise RuntimeError);
        Resolve 0 (Raise RuntimeError) ] = Some s
    /\ settled s = [ ({| method := "GET"; path := "/users/1" |},
                      Raise RuntimeError);
                     ({| method := "GET"; path := "/users/2" |},
                      Raise RuntimeError) ]).
  { vm_compute. eexists. split; reflexivity. }
  destruct Hs as (s & Hrun & Hlog). exists s. split; [exact Hrun |].
  rewrite (one_series_per_label_pair _ _ _ Hrun), Hlog.
  unfold latency_series. cbn.
  rewrite union_empty_r_L. reflexivity.
Defined.

(* ===================================================================== *)
(** * Proofs: hexadecimal identifiers *)
(* ===================================================================== *)

(** With fuel enough for the bits of [n], the number of digits [k]
    satisfies [n < 16 ^ k]. *)
Lemma hex_digits_enough (fuel : nat) :
  forall n, 0 <= n < 2 ^ Z.of_nat fuel ->
    n < 16 ^ Z.of_nat (length (hex_digits fuel n)).
Proof.
  induction fuel as [| fuel IH]; intros n Hn.
  - cbn in *. lia.
  - cbn [hex_digits]. destruct (n <? 16) eqn:E.
    + apply Z.ltb_lt in E. cbn. lia.
    + apply Z.ltb_ge in E. rewrite length_app. cbn [length].
      rewrite Nat.add_1_r, Nat2Z.inj_succ, Z.pow_succ_r by lia.
      rewrite Nat2Z.inj_succ, Z.pow_succ_r in Hn by lia.
      assert (Hq : 0 <= n / 16 < 2 ^ Z.of_nat fuel).
      { split; [apply Z.div_pos; lia | apply Z.div_lt_upper_bound; lia]. }
      specialize (IH _ Hq).
      pose proof (Z.div_mod n 16 ltac:(lia)) as Hdm.
      pose proof (Z.mod_pos_bound n 16 ltac:(lia)) as Hm.
      lia.
Qed.

Lemma hex_enough (n : Z) : 0 <= n -> n < 16 ^ Z.of_nat (length (hex n)).
Proof.
  intros Hn. apply hex_digits_enough. split; [assumption |].
  rewrite Nat2Z.inj_succ, Z2Nat.id by apply Z.log2_nonneg.
  destruct (Z.eq_dec n 0) as [-> | Hne]; [reflexivity |].
  apply Z.log2_spec. lia.
Qed.

(** X11. Whatever the width, the text [format(n, "0<width>x")] produces
    for [n >= 0] reads back, as a base-16 numeral, as [n]; hence two
    different identifiers are never written as the same text. *)
Theorem format_0x_round_trip (width : nat) :
  (forall n, 0 <= n ->
     hex_value (String.list_ascii_of_string (format_0x width n)) = n)
  /\ (forall a b, 0 <= a -> 0 <= b ->
        format_0x width a = format_0x width b -> a = b).
Proof.
  assert (Hrt : forall n, 0 <= n ->
     hex_value (String.list_ascii_of_string (format_0x width n)) = n).
  { intros n Hn. unfold format_0x.
    destruct (n <? 0) eqn:E; [apply Z.ltb_lt in E; lia |].
    rewrite String.list_ascii_of_string_of_list_ascii, hex_value_zeros.
    now apply hex_value_hex. }
  split; [exact Hrt |].
  intros a b Ha Hb Heq.
  rewrite <- (Hrt a Ha), <- (Hrt b Hb). now rewrite Heq.
Qed.

Lemma format_0x_round_trip_witness :
  0 <= 48879
  /\ format_0x 8 48879 = "0000beef"
  /\ hex_value (String.list_ascii_of_string "0000beef") = 48879.
Proof.
  split; [lia |]. split; [reflexivity |].
  exact (proj1 (format_0x_round_trip 8) 48879 ltac:(lia)).
Defined.

(** X12. [format(n, "0<width>x")] pads and never cuts: for [n >= 0] the
    text has at least [width] characters, exactly [width] when
    [n < 16 ^ width] (and [width >= 1]), and more than [width] when
    [n >= 16 ^ width], so an identifier too wide for the field is written
    in full. *)
Theorem format_0x_never_cuts (width : nat) (n : Z) :
  0 <= n ->
  (width <= String.length (format_0x width n))%nat
  /\ ((1 <= width)%nat -> n < 16 ^ Z.of_nat width ->
      String.length (format_0x width n) = width)
  /\ (16 ^ Z.of_nat width <= n ->
      (width < String.length (format_0x width n))%nat).
Proof.
  intros Hn. unfold format_0x.
  destruct (n <? 0) eqn:E; [apply Z.ltb_lt in E; lia |].
  rewrite length_of_list_ascii, length_app, length_replicate.
  split; [lia |]. split.
  - intros Hw Hlt.
    pose proof (length_hex_digits (S (Z.to_nat (Z.log2 n))) width n Hw
                  ltac:(lia)) as Hlen.
    fold (hex n) in Hlen. lia.
  - intros Hge. pose proof (hex_enough n Hn) as Hlt.
    assert (Hk : (width < length (hex n))%nat).
    { apply Nat2Z.inj_lt.
      apply (Z.pow_lt_mono_r_iff 16); lia. }
    lia.
Qed.

Lemma format_0x_never_cuts_witness :
  16 ^ Z.of_nat 4 <= 2 ^ 20
  /\ format_0x 4 (2 ^ 20) = "100000"
  /\ (4 < String.length (format_0x 4 (2 ^ 20)))%nat.
Proof.
  split; [cbn; lia |]. split; [reflexivity |].
  destruct (format_0x_never_cuts 4 (2 ^ 20) ltac:(cbn; lia)) as (_ & _ & H).
  apply H. cbn. lia.
Defined.
